(** * kek-dex: the TradingView webhook gateway

    A shallow embedding of the webhook trust pipeline of the repository:

    - [src/lib/webhookCrypto.ts]   ([encryptApiSecret], [decryptApiSecret],
      [hashApiKey], [verifyHmacSignature], [generateSecureApiCredentials]),
    - [src/lib/webhookAuth.ts]     ([verifyWebhookSignature],
      [createSignatureMessage], [timingSafeEqual], [validateWebhookPayload],
      [generateApiCredentials], [generateRandomString],
      [checkApiKeyPermissions]),
    - [src/lib/supabase/webhookDatabase.ts] ([createWebhook],
      [getWebhookByApiKey], [getUserWebhooks], [updateWebhook],
      [deleteWebhook], [logWebhookExecution], [checkDailyLimit]),
    - [src/lib/supabase/rateLimiter.ts] ([checkRateLimit],
      [getRateLimitStatus], [resetRateLimit], [cleanupExpiredRateLimits],
      [getRateLimitConfig]),
    - the route of the TradingView webhook (the [POST] handler that takes
      the alert) and the routes that update and delete a webhook.

    Conventions of the embedding.

    - A JavaScript number is [NaN] or an exact rational: rounding and the
      infinities of IEEE doubles are left out.  Where a statement turns on
      a threshold, it is made through the test of the handler itself or for
      integers on which the doubles are exact.
    - A JSON body is an object with scalar fields, kept as an association
      list in insertion order with pairwise distinct keys.
    - A string is a [string] of bytes; for the ASCII identifiers, hex digests
      and field names of this program its length is the byte length of the
      [Buffer] made from it, and byte order is UTF-16 code unit order.
    - The three Supabase tables are lists of rows, oldest first.  A query
      either returns its rows or, for [.single()], exactly one row; storage
      failures (network, permissions, a client that is not configured)
      are not modelled, the unique constraint of [rate_limits] is, and so
      are the primary key and the unique key of [webhooks], the [uuid] type
      of its [id] where a delete filters on it, and the cascade from
      [webhooks] to [webhook_logs].
    - Time is a number of milliseconds since the epoch, one reading per
      request; the midnight that starts the local day of an instant is the
      host's.
    - What Node, the host and the order executor provide (HMAC, SHA-256,
      AES-GCM and its key, number formatting, the local midnight, the trade
      itself) is the [Platform] the program runs on: a record of functions
      every definition is parametric in.  Random bytes, fresh row ids, the
      environment of the rate limits, [parseInt] and what the database
      reads as a [uuid] are arguments of the functions that use them. *)

From Stdlib Require Import List ZArith QArith Qabs String Ascii Bool Lia Lqa.
From Stdlib Require Import DecimalString.
From Stdlib Require Import Permutation Sorted.
Import ListNotations.

Local Open Scope Z_scope.

(** ** JavaScript values *)

Module JS.

Inductive number : Type :=
| NaN
| Num (q : Q).

Definition num_of_Z (z : Z) : number := Num (inject_Z z).

Definition num_add (a b : number) : number :=
  match a, b with
  | Num x, Num y => Num (x + y)
  | _, _ => NaN
  end.

Definition num_sub (a b : number) : number :=
  match a, b with
  | Num x, Num y => Num (x - y)
  | _, _ => NaN
  end.

Definition num_mul (a b : number) : number :=
  match a, b with
  | Num x, Num y => Num (x * y)
  | _, _ => NaN
  end.

(** [Math.abs] *)
Definition num_abs (a : number) : number :=
  match a with
  | Num x => Num (Qabs x)
  | NaN => NaN
  end.

(** [a > b], [a < b], [a >= b], [a <= b]: every comparison with [NaN] is
    false. *)
Definition num_gt (a b : number) : bool :=
  match a, b with
  | Num x, Num y => negb (Qle_bool x y)
  | _, _ => false
  end.

Definition num_lt (a b : number) : bool := num_gt b a.

Definition num_le (a b : number) : bool :=
  match a, b with
  | Num x, Num y => Qle_bool x y
  | _, _ => false
  end.

Definition num_ge (a b : number) : bool := num_le b a.

Definition num_truthy (a : number) : bool :=
  match a with
  | Num x => negb (Qeq_bool x 0)
  | NaN => false
  end.

Inductive value : Type :=
| Undefined
| Null
| Boolean (b : bool)
| Number (n : number)
| Str (s : string).

(** [ToBoolean] *)
Definition truthy (v : value) : bool :=
  match v with
  | Undefined | Null => false
  | Boolean b => b
  | Number n => num_truthy n
  | Str s => negb (String.eqb s EmptyString)
  end.

(** [a || b] *)
Definition or_else (a b : value) : value := if truthy a then a else b.

(** [typeof v] *)
Definition typeof (v : value) : string :=
  match v with
  | Undefined => "undefined"
  | Null => "object"
  | Boolean _ => "boolean"
  | Number _ => "number"
  | Str _ => "string"
  end.

(** An exception propagating out of a call, or its result. *)
Inductive result (A : Type) : Type :=
| Ret (a : A)
| Throw (message : string).
Arguments Ret {A} a.
Arguments Throw {A} message.

(** A JSON object: its own properties in insertion order. *)
Definition object : Type := list (string * value).

(** [o[key]] *)
Fixpoint get (o : object) (key : string) : value :=
  match o with
  | [] => Undefined
  | (k, v) :: rest => if String.eqb k key then v else get rest key
  end.

(** [Object.keys(o)] *)
Definition keys (o : object) : list string := map fst o.

(** [const { [key]: _, ...rest } = o] *)
Definition omit (key : string) (o : object) : object :=
  filter (fun kv => negb (String.eqb (fst kv) key)) o.

(** [Array.prototype.sort()] without a comparator, on strings: ascending by
    code units.  The specification leaves the algorithm open; on a total
    order every stable sort returns this list. *)
Fixpoint insert_sorted (s : string) (l : list string) : list string :=
  match l with
  | [] => [s]
  | x :: rest => if String.leb s x then s :: l else x :: insert_sorted s rest
  end.

Fixpoint sort (l : list string) : list string :=
  match l with
  | [] => []
  | x :: rest => insert_sorted x (sort rest)
  end.

(** [l.join(sep)] *)
Definition join (sep : string) (l : list string) : string := String.concat sep l.

(** [s.includes(t)] *)
Definition includes (s t : string) : bool :=
  match String.index 0 t s with
  | Some _ => true
  | None => false
  end.

(** [s.split(sep)] for a one-character separator. *)
Fixpoint split_on (sep : ascii) (s : string) : list string :=
  match s with
  | EmptyString => [EmptyString]
  | String c rest =>
      if Ascii.eqb c sep then EmptyString :: split_on sep rest
      else match split_on sep rest with
           | [] => [String c EmptyString]
           | h :: t => String c h :: t
           end
  end.

(** [s.charCodeAt(i)] of every position, in order. *)
Definition char_codes (s : string) : list Z :=
  map (fun c => Z.of_N (N_of_ascii c)) (list_ascii_of_string s).

End JS.
Import JS.

(** ** The platform

    Node's [crypto] and number conversions, the host's environment and
    clock, and the external order executor.  [getEncryptionKey] is the key
    of [WEBHOOK_ENCRYPTION_KEY] in hex, or what the function of that name
    throws when the variable is unset or not 32 bytes long;
    [createDecipheriv key iv data tag] is the text the decipher of
    [createDecipheriv("aes-256-gcm", key, iv)] returns for the data under
    the tag, [None] when it throws (the tag does not authenticate the
    data); [local_midnight now] is [setHours(0, 0, 0, 0)] on the date
    [now], in the time zone of the host. *)

Record OrderResult : Type := {
  orderId : string;
  executedPrice : value;
  executedQuantity : value
}.

Class Platform : Type := {
  number_to_string : number -> string;
  string_to_number : string -> number;
  hmac_sha256_hex : string -> string -> string;
  sha256_hex : string -> string;
  getEncryptionKey : result string;
  createDecipheriv : string -> string -> string -> string -> option string;
  local_midnight : Z -> Z;
  executeOrder : object -> string -> result OrderResult
}.

Section Conversions.
Context {platform : Platform}.

(** [ToNumber] *)
Definition to_number (v : value) : number :=
  match v with
  | Undefined => NaN
  | Null => Num 0
  | Boolean b => if b then Num 1 else Num 0
  | Number n => n
  | Str s => string_to_number s
  end.

(** [ToString], as a template literal applies it. *)
Definition to_string (v : value) : string :=
  match v with
  | Undefined => "undefined"
  | Null => "null"
  | Boolean b => if b then "true" else "false"
  | Number n => number_to_string n
  | Str s => s
  end.

(** The decipher under the key of the environment: [None] when the key is
    not usable or the decipher throws. *)
Definition aes_256_gcm_decrypt (iv data tag : string) : option string :=
  match getEncryptionKey with
  | Ret key => createDecipheriv key iv data tag
  | Throw _ => None
  end.

(** Midnight of the local day of [now]: [today.setHours(0, 0, 0, 0)]. *)
Definition start_of_day (now : Z) : Z := local_midnight now.

End Conversions.

(** ** Node primitives the program calls *)

Module Node.

(** [Buffer.from(v)]: the bytes of a string; a [TypeError] for [undefined],
    [null], a number or a boolean.  The arrays and array-like objects it
    also takes are not among the values of the embedding: what is stated
    of a signature says which of these scalars it is. *)
Definition Buffer_from (v : value) : result string :=
  match v with
  | Str s => Ret s
  | _ => Throw "The first argument must be of type string or an instance of Buffer"
  end.

(** [crypto.timingSafeEqual(a, b)]: Node throws a [RangeError] when the two
    buffers differ in byte length, and otherwise compares every byte. *)
Definition timingSafeEqual (a b : string) : result bool :=
  if Nat.eqb (String.length a) (String.length b)
  then Ret (String.eqb a b)
  else Throw "Input buffers must have the same byte length".

End Node.

(** ** Rows of the Supabase tables ([src/lib/supabase/client.ts]) *)

Module WebhookDB.
Record t : Type := mk {
  id : string;
  user_id : string;
  name : string;
  api_key : string;
  api_secret_hash : string;
  encrypted_secret : option string;
  enabled : bool;
  allowed_symbols : list string;
  max_order_size : number;
  daily_limit : number;
  require_stop_loss : bool;
  execution_count : Z
}.
End WebhookDB.

Module WebhookLogDB.
Record t : Type := mk {
  webhook_id : string;
  request_payload : option object;
  response_payload : object;
  order_id : value;
  status : string;
  error_message : value;
  created_at : Z
}.
End WebhookLogDB.

Module RateLimitDB.
Record t : Type := mk {
  user_id : string;
  api_key : string;
  window_type : string;
  window_start : Z;
  request_count : Z
}.
End RateLimitDB.

Record Database : Type := {
  webhooks : list WebhookDB.t;
  webhook_logs : list WebhookLogDB.t;
  rate_limits : list RateLimitDB.t
}.

(** [.single()]: the row when the query matched exactly one, an error (and
    no data) otherwise. *)
Definition single {A : Type} (rows : list A) : option A :=
  match rows with
  | [r] => Some r
  | _ => None
  end.

(** ** [webhookDatabase.ts]: the domain model *)

Module WebhookConfig.
Record t : Type := mk {
  id : string;
  userId : string;
  name : string;
  apiKey : string;
  apiSecretHash : string;
  encryptedSecret : option string;
  enabled : bool;
  allowedSymbols : list string;
  maxOrderSize : number;
  dailyLimit : number;
  requireStopLoss : bool;
  executionCount : Z
}.
End WebhookConfig.

Definition toWebhookConfig (db : WebhookDB.t) : WebhookConfig.t :=
  {| WebhookConfig.id := WebhookDB.id db;
     WebhookConfig.userId := WebhookDB.user_id db;
     WebhookConfig.name := WebhookDB.name db;
     WebhookConfig.apiKey := WebhookDB.api_key db;
     WebhookConfig.apiSecretHash := WebhookDB.api_secret_hash db;
     WebhookConfig.encryptedSecret :=
       match WebhookDB.encrypted_secret db with
       | Some s => if String.eqb s EmptyString then None else Some s
       | None => None
       end;
     WebhookConfig.enabled := WebhookDB.enabled db;
     WebhookConfig.allowedSymbols := WebhookDB.allowed_symbols db;
     WebhookConfig.maxOrderSize := WebhookDB.max_order_size db;
     WebhookConfig.dailyLimit := WebhookDB.daily_limit db;
     WebhookConfig.requireStopLoss := WebhookDB.require_stop_loss db;
     WebhookConfig.executionCount := WebhookDB.execution_count db |}.

(** [from("webhooks").select("*").eq("api_key", apiKey).single()] *)
Definition getWebhookByApiKey (db : Database) (apiKey : string) : option WebhookConfig.t :=
  match single (filter (fun r => String.eqb (WebhookDB.api_key r) apiKey) (webhooks db)) with
  | Some data => Some (toWebhookConfig data)
  | None => None
  end.

Definition getUserFromApiKey (db : Database) (apiKey : string) : option WebhookConfig.t :=
  getWebhookByApiKey db apiKey.

(** [logWebhookExecution] of [webhookDatabase.ts]: the insert into
    [webhook_logs].  The update of the observational columns
    [execution_count] and [last_execution_at] that follows is left out. *)
Definition dbLogExecution (now : Z) (webhookId : string) (requestPayload : object)
    (responsePayload : object) (status : string) (orderId errorMessage : value)
    (db : Database) : Database :=
  {| webhooks := webhooks db;
     webhook_logs := webhook_logs db ++
       [ {| WebhookLogDB.webhook_id := webhookId;
            WebhookLogDB.request_payload := Some requestPayload;
            WebhookLogDB.response_payload := responsePayload;
            WebhookLogDB.order_id := orderId;
            WebhookLogDB.status := status;
            WebhookLogDB.error_message := errorMessage;
            WebhookLogDB.created_at := now |} ];
     rate_limits := rate_limits db |}.

Module DailyLimit.
Record t : Type := mk {
  withinLimit : bool;
  currentUsage : number;
  limit : number
}.
End DailyLimit.

(** ** [rateLimiter.ts] *)

Record RateLimitConfig : Type := {
  maxRequestsPerMinute : Z;
  maxRequestsPerHour : Z;
  maxRequestsPerDay : Z
}.

Definition DEFAULT_RATE_LIMITS : RateLimitConfig :=
  {| maxRequestsPerMinute := 10;
     maxRequestsPerHour := 100;
     maxRequestsPerDay := 1000 |}.

Module Window.
Record t : Type := mk {
  type : string;
  duration : Z;
  limit : Z
}.
End Window.

Definition windows (config : RateLimitConfig) : list Window.t :=
  [ {| Window.type := "minute"; Window.duration := 60 * 1000;
       Window.limit := maxRequestsPerMinute config |};
    {| Window.type := "hour"; Window.duration := 60 * 60 * 1000;
       Window.limit := maxRequestsPerHour config |};
    {| Window.type := "day"; Window.duration := 24 * 60 * 60 * 1000;
       Window.limit := maxRequestsPerDay config |} ].

(** The filter both the select and the update of a window apply:
    [.eq("user_id", userId).eq("api_key", apiKey).eq("window_type", type)
     .gte("window_start", windowStart)]. *)
Definition in_window (userId apiKey type : string) (windowStart : Z)
    (r : RateLimitDB.t) : bool :=
  String.eqb (RateLimitDB.user_id r) userId
  && String.eqb (RateLimitDB.api_key r) apiKey
  && String.eqb (RateLimitDB.window_type r) type
  && (windowStart <=? RateLimitDB.window_start r).

Definition set_request_count (n : Z) (r : RateLimitDB.t) : RateLimitDB.t :=
  {| RateLimitDB.user_id := RateLimitDB.user_id r;
     RateLimitDB.api_key := RateLimitDB.api_key r;
     RateLimitDB.window_type := RateLimitDB.window_type r;
     RateLimitDB.window_start := RateLimitDB.window_start r;
     RateLimitDB.request_count := n |}.

(** [UNIQUE(user_id, api_key, window_type, window_start)] *)
Definition same_window (a b : RateLimitDB.t) : bool :=
  String.eqb (RateLimitDB.user_id a) (RateLimitDB.user_id b)
  && String.eqb (RateLimitDB.api_key a) (RateLimitDB.api_key b)
  && String.eqb (RateLimitDB.window_type a) (RateLimitDB.window_type b)
  && (RateLimitDB.window_start a =? RateLimitDB.window_start b).

(** [from("rate_limits").insert(row)]: the new table and the error code, if
    any; a row that repeats a window is refused with 23505. *)
Definition insert_rate_limit (row : RateLimitDB.t) (rows : list RateLimitDB.t)
    : list RateLimitDB.t * option string :=
  if existsb (same_window row) rows then (rows, Some "23505"%string)
  else (rows ++ [row], None).

(** One turn of the loop [for (const window of windows)]: [false] when the
    turn returns [false] from [checkRateLimit], [true] when the loop goes
    on. *)
Definition check_window (userId apiKey : string) (now : Z) (window : Window.t)
    (rows : list RateLimitDB.t) : bool * list RateLimitDB.t :=
  let windowStart := now - Window.duration window in
  let selected := in_window userId apiKey (Window.type window) windowStart in
  match single (filter selected rows) with
  | Some existing =>
      if Window.limit window <=? RateLimitDB.request_count existing
      then (false, rows)
      else
        (true,
         map (fun r =>
                if selected r
                then set_request_count (RateLimitDB.request_count existing + 1) r
                else r) rows)
  | None =>
      let '(rows', error) :=
        insert_rate_limit
          {| RateLimitDB.user_id := userId;
             RateLimitDB.api_key := apiKey;
             RateLimitDB.window_type := Window.type window;
             RateLimitDB.window_start := now;
             RateLimitDB.request_count := 1 |} rows in
      match error with
      | Some code => if String.eqb code "23505" then (true, rows') else (false, rows')
      | None => (true, rows')
      end
  end.

Fixpoint check_windows (userId apiKey : string) (now : Z) (ws : list Window.t)
    (rows : list RateLimitDB.t) : bool * list RateLimitDB.t :=
  match ws with
  | [] => (true, rows)
  | window :: rest =>
      let '(go_on, rows') := check_window userId apiKey now window rows in
      if go_on then check_windows userId apiKey now rest rows' else (false, rows')
  end.

Definition checkRateLimit (userId apiKey : string) (config : RateLimitConfig)
    (now : Z) (rows : list RateLimitDB.t) : bool * list RateLimitDB.t :=
  check_windows userId apiKey now (windows config) rows.

(** A client calling [checkRateLimit] once at each of the times [times], in
    order: the answers, and the table left behind. *)
Fixpoint call_at_times (userId apiKey : string) (config : RateLimitConfig)
    (times : list Z) (rows : list RateLimitDB.t) : list bool * list RateLimitDB.t :=
  match times with
  | [] => ([], rows)
  | now :: later =>
      let '(ok, rows') := checkRateLimit userId apiKey config now rows in
      let '(answers, rows'') := call_at_times userId apiKey config later rows' in
      (ok :: answers, rows'')
  end.

(** ** The program over a platform *)

Module Validation.
Record t : Type := mk {
  valid : bool;
  error : option string
}.
End Validation.

Module WebhookResponse.
Record t : Type := mk {
  success : bool;
  orderId : option string;
  message : option string;
  error : option string;
  executedPrice : value;
  executedQuantity : value;
  timestamp : option Z
}.
End WebhookResponse.

Module NextResponse.
Record t : Type := mk {
  body : WebhookResponse.t;
  status : Z
}.
End NextResponse.

(** What one run of the handler leaves behind: the response, the tables, and
    the orders handed to [WebhookOrderService.executeOrder] (with the user
    they were placed for), in order. *)
Module Outcome.
Record t : Type := mk {
  response : NextResponse.t;
  database : Database;
  handed : list (object * string)
}.
End Outcome.

(** [v === s] for a string [s] *)
Definition is_string (v : value) (s : string) : bool :=
  match v with
  | Str t => String.eqb t s
  | _ => false
  end.

(** [array.includes(v)] on an array of strings *)
Definition includes_value (l : list string) (v : value) : bool :=
  match v with
  | Str s => existsb (String.eqb s) l
  | _ => false
  end.

Section Program.
Context {platform : Platform}.

(** *** [webhookCrypto.ts] *)

Definition decryptApiSecret (encryptedData : string) : result string :=
  match getEncryptionKey with
  | Throw e => Throw e
  | Ret key =>
      match split_on ":" encryptedData with
      | [ivHex; encrypted; authTagHex] =>
          match createDecipheriv key ivHex encrypted authTagHex with
          | Some decrypted => Ret decrypted
          | None => Throw "Unsupported state or unable to authenticate data"
          end
      | _ => Throw "Invalid encrypted data format"
      end
  end.

Definition hashApiKey (apiKey : string) : string := sha256_hex apiKey.

(** The message [verifyHmacSignature] signs: the payload without its
    [signature], keys sorted, each rendered [key=value], joined by [&]. *)
Definition signed_message (payload : object) : string :=
  let dataToSign := omit "signature" payload in
  let sortedKeys := sort (keys dataToSign) in
  join "&" (map (fun key => (key ++ "=" ++ to_string (get dataToSign key))%string) sortedKeys).

Definition verifyHmacSignature (payload : object) (signature : value) (secret : string)
    : result bool :=
  let message := signed_message payload in
  let expectedSignature := hmac_sha256_hex secret message in
  match Node.Buffer_from signature with
  | Throw e => Throw e
  | Ret provided => Node.timingSafeEqual provided expectedSignature
  end.

(** *** [webhookAuth.ts] *)

Definition createSignatureMessage (data : object) : string :=
  let sortedKeys := sort (keys data) in
  let values := map (fun key => (key ++ "=" ++ to_string (get data key))%string) sortedKeys in
  join "&" values.

(** The loop [result |= a.charCodeAt(i) ^ b.charCodeAt(i)] runs over every
    position once the lengths agree. *)
Definition timingSafeEqual (a b : string) : bool :=
  if negb (Nat.eqb (String.length a) (String.length b)) then false
  else
    let result :=
      fold_left (fun acc ab => Z.lor acc (Z.lxor (fst ab) (snd ab)))
                (combine (char_codes a) (char_codes b)) 0 in
    result =? 0.

Definition verifyWebhookSignature (db : Database) (payload : object) : bool :=
  match getWebhookByApiKey db (to_string (get payload "apiKey")) with
  | None => false
  | Some webhookConfig =>
      match WebhookConfig.encryptedSecret webhookConfig with
      | Some encryptedSecret =>
          match decryptApiSecret encryptedSecret with
          | Throw _ => false
          | Ret plainSecret =>
              match verifyHmacSignature payload (get payload "signature") plainSecret with
              | Throw _ => false
              | Ret verdict => verdict
              end
          end
      | None => false
      end
  end.

Definition invalid (e : string) : Validation.t :=
  {| Validation.valid := false; Validation.error := Some e |}.

Definition validateWebhookPayload (payload : object) : Validation.t :=
  if negb (truthy (get payload "action")) then
    invalid "Missing required field: action"
  else if negb (includes_value ["buy"; "sell"; "close"]%string (get payload "action")) then
    invalid "Invalid action. Must be 'buy', 'sell', or 'close'"
  else if negb (truthy (get payload "symbol")) then
    invalid "Missing required field: symbol"
  else if match get payload "quantity" with
          | Number n => num_le n (Num 0)
          | _ => true
          end then
    invalid "Invalid quantity. Must be a positive number"
  else if negb (truthy (get payload "apiKey")) then
    invalid "Missing required field: apiKey"
  else if negb (truthy (get payload "signature")) then
    invalid "Missing required field: signature"
  else if negb (truthy (get payload "timestamp")) then
    invalid "Missing required field: timestamp"
  else if truthy (get payload "orderType")
          && negb (includes_value ["market"; "limit"; "stop"]%string (get payload "orderType")) then
    invalid "Invalid orderType. Must be 'market', 'limit', or 'stop'"
  else if is_string (get payload "orderType") "limit"
          && negb (truthy (get payload "price")) then
    invalid "Limit orders require a price"
  else if truthy (get payload "stopLoss")
          && negb (String.eqb (typeof (get payload "stopLoss")) "number") then
    invalid "Invalid stopLoss. Must be a number"
  else if truthy (get payload "takeProfit")
          && negb (String.eqb (typeof (get payload "takeProfit")) "number") then
    invalid "Invalid takeProfit. Must be a number"
  else {| Validation.valid := true; Validation.error := None |}.

(** *** [webhookDatabase.ts]: [checkDailyLimit] *)

Definition checkDailyLimit (db : Database) (now : Z) (webhookId : string) : DailyLimit.t :=
  match single (filter (fun r => String.eqb (WebhookDB.id r) webhookId) (webhooks db)) with
  | None =>
      {| DailyLimit.withinLimit := false;
         DailyLimit.currentUsage := Num 0;
         DailyLimit.limit := Num 0 |}
  | Some webhook =>
      let today := start_of_day now in
      let logs :=
        filter (fun l =>
                  String.eqb (WebhookLogDB.webhook_id l) webhookId
                  && String.eqb (WebhookLogDB.status l) "success"
                  && (today <=? WebhookLogDB.created_at l))
               (webhook_logs db) in
      let currentUsage :=
        fold_left (fun usage log =>
                     match WebhookLogDB.request_payload log with
                     | Some request_payload =>
                         let quantity := or_else (get request_payload "quantity") (Number (Num 0)) in
                         let price := or_else (get request_payload "price") (Number (Num 0)) in
                         num_add usage (num_mul (to_number quantity) (to_number price))
                     | None => usage
                     end)
                  logs (Num 0) in
      {| DailyLimit.withinLimit := num_lt currentUsage (WebhookDB.daily_limit webhook);
         DailyLimit.currentUsage := currentUsage;
         DailyLimit.limit := WebhookDB.daily_limit webhook |}
  end.

(** *** The route [POST /api/webhooks/tradingview] *)

Definition respond (status : Z) (error : string) (db : Database)
    (handed : list (object * string)) : Outcome.t :=
  {| Outcome.response :=
       {| NextResponse.body :=
            {| WebhookResponse.success := false;
               WebhookResponse.orderId := None;
               WebhookResponse.message := None;
               WebhookResponse.error := Some error;
               WebhookResponse.executedPrice := Undefined;
               WebhookResponse.executedQuantity := Undefined;
               WebhookResponse.timestamp := None |};
          NextResponse.status := status |};
     Outcome.database := db;
     Outcome.handed := handed |}.

(** The route's helper [logWebhookExecution]. *)
Definition logWebhookExecution (now : Z) (webhookId : string) (request response : object)
    (status : string) (db : Database) : Database :=
  dbLogExecution now webhookId request response status
                 (get response "orderId") (get response "error") db.

(** The [catch] block of the handler; [payload] is [None] while the body has
    not been parsed into an object. *)
Definition on_error (now : Z) (payload : option object) (message : string)
    (db : Database) (handed : list (object * string)) : Outcome.t :=
  let db' :=
    match payload with
    | Some payload =>
        if truthy (get payload "apiKey") then
          match getUserFromApiKey db (to_string (get payload "apiKey")) with
          | Some webhookConfig =>
              logWebhookExecution now (WebhookConfig.id webhookConfig) payload
                [("success", Boolean false); ("error", Str message)]%string "failed" db
          | None => db
          end
        else db
    | None => db
    end in
  if includes message "Insufficient balance" then
    respond 400 "Insufficient balance to execute order" db' handed
  else if includes message "Market closed" then
    respond 400 "Market is closed" db' handed
  else respond 500 "Internal server error" db' handed.

Definition with_rate_limits (db : Database) (rows : list RateLimitDB.t) : Database :=
  {| webhooks := webhooks db; webhook_logs := webhook_logs db; rate_limits := rows |}.

(** The stages of the handler that read the payload alone or against the
    configuration, named after what they reject. *)

(** [!payload.action || !payload.symbol || !payload.quantity || !payload.apiKey] *)
Definition missing_required_fields (payload : object) : bool :=
  negb (truthy (get payload "action"))
  || negb (truthy (get payload "symbol"))
  || negb (truthy (get payload "quantity"))
  || negb (truthy (get payload "apiKey")).

(** [Math.abs(currentTime - requestTime) > 5 * 60 * 1000] *)
Definition timestamp_rejected (now : Z) (payload : object) : bool :=
  let currentTime := num_of_Z now in
  let requestTime := num_mul (to_number (get payload "timestamp")) (Num 1000) in
  num_gt (num_abs (num_sub currentTime requestTime)) (Num (5 * 60 * 1000)).

Definition symbol_rejected (webhookConfig : WebhookConfig.t) (payload : object) : bool :=
  (0 <? Z.of_nat (List.length (WebhookConfig.allowedSymbols webhookConfig)))
  && negb (includes_value (WebhookConfig.allowedSymbols webhookConfig) (get payload "symbol")).

(** [payload.quantity * (payload.price || 0)] *)
Definition orderValue (payload : object) : number :=
  num_mul (to_number (get payload "quantity"))
          (to_number (or_else (get payload "price") (Number (Num 0)))).

Definition order_size_rejected (webhookConfig : WebhookConfig.t) (payload : object) : bool :=
  num_truthy (WebhookConfig.maxOrderSize webhookConfig)
  && num_gt (orderValue payload) (WebhookConfig.maxOrderSize webhookConfig).

Definition stop_loss_rejected (webhookConfig : WebhookConfig.t) (payload : object) : bool :=
  WebhookConfig.requireStopLoss webhookConfig && negb (truthy (get payload "stopLoss")).

(** [request] is the parsed body, [None] when [request.json()] throws or
    yields [null]. *)
Definition POST (now : Z) (request : option object) (db : Database) : Outcome.t :=
  match request with
  | None => on_error now None "Unexpected end of JSON input" db []
  | Some payload =>
      if missing_required_fields payload
      then respond 400 "Missing required fields: action, symbol, quantity, or apiKey" db []
      else if timestamp_rejected now payload
      then respond 401 "Request timestamp is too old or invalid" db []
      else
        let isValid := verifyWebhookSignature db payload in
        if negb isValid then respond 401 "Invalid signature or API key" db []
        else
          match getUserFromApiKey db (to_string (get payload "apiKey")) with
          | None => respond 401 "Invalid API key" db []
          | Some webhookConfig =>
              if negb (WebhookConfig.enabled webhookConfig)
              then respond 403 "Webhook is disabled" db []
              else
                let '(rateLimitOk, rows) :=
                  checkRateLimit (WebhookConfig.userId webhookConfig)
                                 (to_string (get payload "apiKey"))
                                 DEFAULT_RATE_LIMITS now (rate_limits db) in
                let db := with_rate_limits db rows in
                if negb rateLimitOk
                then respond 429 "Rate limit exceeded. Please try again later." db []
                else if symbol_rejected webhookConfig payload
                then respond 403 ("Symbol " ++ to_string (get payload "symbol")
                                   ++ " is not allowed for this webhook")%string db []
                else if order_size_rejected webhookConfig payload
                then respond 403 ("Order size exceeds maximum limit of "
                                  ++ number_to_string (WebhookConfig.maxOrderSize webhookConfig))%string
                             db []
                else if stop_loss_rejected webhookConfig payload
                then respond 400 "Stop loss is required for this webhook configuration" db []
                else
                  let handed := [(payload, WebhookConfig.userId webhookConfig)] in
                  match executeOrder payload (WebhookConfig.userId webhookConfig) with
                  | Throw message => on_error now (Some payload) message db handed
                  | Ret orderResult =>
                      let db :=
                        logWebhookExecution now (WebhookConfig.id webhookConfig) payload
                          [("success", Boolean true);
                           ("orderId", Str (orderId orderResult));
                           ("executedPrice", executedPrice orderResult);
                           ("executedQuantity", executedQuantity orderResult)]%string
                          "success" db in
                      {| Outcome.response :=
                           {| NextResponse.body :=
                                {| WebhookResponse.success := true;
                                   WebhookResponse.orderId := Some (orderId orderResult);
                                   WebhookResponse.message := Some "Order placed successfully"%string;
                                   WebhookResponse.error := None;
                                   WebhookResponse.executedPrice := executedPrice orderResult;
                                   WebhookResponse.executedQuantity := executedQuantity orderResult;
                                   WebhookResponse.timestamp := Some now |};
                              NextResponse.status := 200 |};
                         Outcome.database := db;
                         Outcome.handed := handed |}
                  end
          end
  end.

End Program.

(** * The rest of the modules *)

(** ** [rateLimiter.ts]: status, reset, sweep, configuration *)

Module RateLimitStatus.
Record t : Type := mk {
  minuteLimit : Z;
  minuteRemaining : Z;
  minuteReset : Z;
  hourLimit : Z;
  hourRemaining : Z;
  hourReset : Z;
  dayLimit : Z;
  dayRemaining : Z;
  dayReset : Z
}.
End RateLimitStatus.

(** [.order("window_start", { ascending: false }).limit(1).single()]: the
    row that starts last, no data on an empty result.  The unique
    constraint leaves no two rows of one counter with the same start. *)
Fixpoint latest (rows : list RateLimitDB.t) : option RateLimitDB.t :=
  match rows with
  | [] => None
  | r :: rest =>
      match latest rest with
      | Some r' =>
          if RateLimitDB.window_start r <? RateLimitDB.window_start r'
          then Some r' else Some r
      | None => Some r
      end
  end.

(** The closure [getRemaining] of [getRateLimitStatus]: what is left of the
    limit, and when the window resets. *)
Definition getRemaining (userId apiKey : string) (now : Z) (rows : list RateLimitDB.t)
    (windowType : string) (duration limit : Z) : Z * Z :=
  let windowStart := now - duration in
  match latest (filter (in_window userId apiKey windowType windowStart) rows) with
  | None => (limit, 0)
  | Some data =>
      let resetTime := RateLimitDB.window_start data + duration in
      (limit - RateLimitDB.request_count data, resetTime)
  end.

Definition getRateLimitStatus (userId apiKey : string) (config : RateLimitConfig)
    (now : Z) (rows : list RateLimitDB.t) : RateLimitStatus.t :=
  let '(minuteRemaining, minuteReset) :=
    getRemaining userId apiKey now rows "minute" (60 * 1000) (maxRequestsPerMinute config) in
  let '(hourRemaining, hourReset) :=
    getRemaining userId apiKey now rows "hour" (60 * 60 * 1000) (maxRequestsPerHour config) in
  let '(dayRemaining, dayReset) :=
    getRemaining userId apiKey now rows "day" (24 * 60 * 60 * 1000) (maxRequestsPerDay config) in
  {| RateLimitStatus.minuteLimit := maxRequestsPerMinute config;
     RateLimitStatus.minuteRemaining := minuteRemaining;
     RateLimitStatus.minuteReset := minuteReset;
     RateLimitStatus.hourLimit := maxRequestsPerHour config;
     RateLimitStatus.hourRemaining := hourRemaining;
     RateLimitStatus.hourReset := hourReset;
     RateLimitStatus.dayLimit := maxRequestsPerDay config;
     RateLimitStatus.dayRemaining := dayRemaining;
     RateLimitStatus.dayReset := dayReset |}.

(** [from("rate_limits").delete().eq("user_id", userId).eq("api_key", apiKey)] *)
Definition resetRateLimit (userId apiKey : string) (rows : list RateLimitDB.t)
    : list RateLimitDB.t :=
  filter (fun r => negb (String.eqb (RateLimitDB.user_id r) userId
                         && String.eqb (RateLimitDB.api_key r) apiKey)) rows.

(** [from("rate_limits").delete().lt("window_start", oneDayAgo)] *)
Definition cleanupExpiredRateLimits (now : Z) (rows : list RateLimitDB.t)
    : list RateLimitDB.t :=
  let oneDayAgo := now - 24 * 60 * 60 * 1000 in
  filter (fun r => negb (RateLimitDB.window_start r <? oneDayAgo)) rows.

Section RateLimitEnvironment.

(** [process.env], and [parseInt] with [None] for [NaN]. *)
Variable process_env : string -> option string.
Variable parseInt : string -> option Z.



End RateLimitEnvironment.

(** ** [webhookDatabase.ts]: create, list, update, delete *)

(** [createWebhook]: the insert into [webhooks] and the row as returned.
    [newId] is the [gen_random_uuid()] of the row; the insert is refused
    when the primary key or the unique [api_key] is taken, and
    [createWebhook] throws with the message of the database, given here
    without the name of the constraint.  The configuration is one the
    columns take ([fits_columns] below): what the insert does with a text
    too long for its column or a number out of its range is not
    modelled. *)
Definition createWebhook (newId userId : string) (config : WebhookConfig.t) (db : Database)
    : result WebhookConfig.t * Database :=
  if existsb (fun r => String.eqb (WebhookDB.id r) newId) (webhooks db)
     || existsb (fun r => String.eqb (WebhookDB.api_key r) (WebhookConfig.apiKey config))
                (webhooks db)
  then (Throw "Failed to create webhook: duplicate key value violates unique constraint", db)
  else
    let data :=
      {| WebhookDB.id := newId;
         WebhookDB.user_id := userId;
         WebhookDB.name := WebhookConfig.name config;
         WebhookDB.api_key := WebhookConfig.apiKey config;
         WebhookDB.api_secret_hash := WebhookConfig.apiSecretHash config;
         WebhookDB.encrypted_secret := WebhookConfig.encryptedSecret config;
         WebhookDB.enabled := WebhookConfig.enabled config;
         WebhookDB.allowed_symbols := WebhookConfig.allowedSymbols config;
         WebhookDB.max_order_size := WebhookConfig.maxOrderSize config;
         WebhookDB.daily_limit := WebhookConfig.dailyLimit config;
         WebhookDB.require_stop_loss := WebhookConfig.requireStopLoss config;
         WebhookDB.execution_count := WebhookConfig.executionCount config |} in
    (Ret (toWebhookConfig data),
     {| webhooks := webhooks db ++ [data];
        webhook_logs := webhook_logs db;
        rate_limits := rate_limits db |}).

(** [getUserWebhooks]: the rows of the user, latest created first. *)
Definition getUserWebhooks (db : Database) (userId : string) : list WebhookConfig.t :=
  map toWebhookConfig
      (rev (filter (fun r => String.eqb (WebhookDB.user_id r) userId) (webhooks db))).

(** The fields [updateWebhook] may be handed: [Partial<Omit<WebhookConfig,
    "id" | "userId" | "apiKey" | "createdAt">>], dates left out. *)
Module WebhookUpdates.
Record t : Type := mk {
  name : option string;
  apiSecretHash : option string;
  encryptedSecret : option string;
  enabled : option bool;
  allowedSymbols : option (list string);
  maxOrderSize : option number;
  dailyLimit : option number;
  requireStopLoss : option bool;
  executionCount : option Z
}.
End WebhookUpdates.




Section Routes.

(** Whether the database reads a text as a [uuid], the type of the column
    [id]: a filter on another text is an error (22P02). *)
Variable is_uuid : string -> bool.



End Routes.


(** ** [webhookAuth.ts]: permissions, random strings *)

(** [checkApiKeyPermissions]; the permissions asked for are not looked at. *)
Definition checkApiKeyPermissions (db : Database) (apiKey : string)
    (requiredPermissions : list string) : bool :=
  match getWebhookByApiKey db apiKey with
  | Some webhookConfig => WebhookConfig.enabled webhookConfig
  | None => false
  end.

Definition chars : string :=
  "ABCDEFGHIJKLMNOPQRSTUVWXYZabcdefghijklmnopqrstuvwxyz0123456789".

(** [generateRandomString(length)], [randomBytes] being the bytes drawn:
    [result += chars[randomBytes[i] % chars.length]]. *)
Definition generateRandomString (randomBytes : list Z) : string :=
  fold_left
    (fun result byte =>
       match String.get (Z.to_nat (byte mod Z.of_nat (String.length chars))) chars with
       | Some c => (result ++ String c EmptyString)%string
       | None => (result ++ "undefined")%string
       end)
    randomBytes EmptyString.

(** ** [webhookCrypto.ts]: encryption and issuance *)

Module SecureApiCredentials.
Record t : Type := mk {
  apiKey : string;
  apiSecret : string;
  apiKeyHash : string;
  encryptedSecret : string
}.
End SecureApiCredentials.

Module ApiCredentials.
Record t : Type := mk {
  apiKey : string;
  apiSecret : string;
  apiSecretHash : string;
  encryptedSecret : string
}.
End ApiCredentials.

Section Issuance.
Context {platform : Platform}.

(** [createCipheriv("aes-256-gcm", key, iv)] run on a secret under the key
    of [getEncryptionKey]: the data and the authentication tag, both in
    hex, or what [getEncryptionKey] throws. *)
Variable aes_256_gcm_encrypt : string -> string -> result (string * string).

(** [encryptApiSecret], [iv] being the hex of the sixteen random bytes. *)
Definition encryptApiSecret (iv plainSecret : string) : result string :=
  match aes_256_gcm_encrypt iv plainSecret with
  | Ret (encrypted, authTag) => Ret (iv ++ ":" ++ encrypted ++ ":" ++ authTag)%string
  | Throw e => Throw e
  end.

(** [generateSecureApiCredentials]; [keyBytes] and [secretBytes] are the
    random bytes in base64url. *)
Definition generateSecureApiCredentials (keyBytes secretBytes iv : string)
    : result SecureApiCredentials.t :=
  let apiKey := ("wh_" ++ keyBytes)%string in
  let apiSecret := ("whs_" ++ secretBytes)%string in
  let apiKeyHash := hashApiKey apiKey in
  match encryptApiSecret iv apiSecret with
  | Throw e => Throw e
  | Ret encryptedSecret =>
      Ret {| SecureApiCredentials.apiKey := apiKey;
             SecureApiCredentials.apiSecret := apiSecret;
             SecureApiCredentials.apiKeyHash := apiKeyHash;
             SecureApiCredentials.encryptedSecret := encryptedSecret |}
  end.

(** [generateApiCredentials] of [webhookAuth.ts]. *)
Definition generateApiCredentials (keyBytes secretBytes iv : string)
    : result ApiCredentials.t :=
  match generateSecureApiCredentials keyBytes secretBytes iv with
  | Throw e => Throw e
  | Ret credentials =>
      Ret {| ApiCredentials.apiKey := SecureApiCredentials.apiKey credentials;
             ApiCredentials.apiSecret := SecureApiCredentials.apiSecret credentials;
             ApiCredentials.apiSecretHash := SecureApiCredentials.apiKeyHash credentials;
             ApiCredentials.encryptedSecret :=
               SecureApiCredentials.encryptedSecret credentials |}
  end.

End Issuance.

(** * The vocabulary of the statements *)

(** ** Keys in ascending order *)

Definition ascending (l : list string) : Prop :=
  StronglySorted (fun a b => String.leb a b = true) l.

(** ** Counters of the rate limiter *)

(** The rows of one counter: one user, one key, one kind of window. *)
Definition of_window (userId apiKey type : string) (r : RateLimitDB.t) : bool :=
  String.eqb (RateLimitDB.user_id r) userId
  && String.eqb (RateLimitDB.api_key r) apiKey
  && String.eqb (RateLimitDB.window_type r) type.

(** The open window of one counter, as the limiter sees it: its start and
    its count; [None] while no row is recent enough. *)
Definition counter : Type := option (Z * Z).

(** [rows] holds, for this counter, the open window [c] and besides it only
    rows that had expired when it was opened. *)
Definition tracks (userId apiKey type : string) (duration now : Z)
    (rows : list RateLimitDB.t) (c : counter) : Prop :=
  match c with
  | None => filter (in_window userId apiKey type (now - duration)) rows = []
  | Some (start, count) =>
      start <= now
      /\ filter (in_window userId apiKey type (start - duration)) rows
         = [RateLimitDB.mk userId apiKey type start count]
  end.









(** Any [n + 1] consecutive calls take more than [duration]: no window of
    that length sees more than [n] of them. *)
Fixpoint spaced (n : nat) (duration : Z) (times : list Z) : bool :=
  match times with
  | [] => true
  | t :: later =>
      match nth_error times n with
      | Some t' => duration <? t' - t
      | None => true
      end && spaced n duration later
  end.

(** Every call falls within [duration] of the time [first]. *)
Definition within (duration first : Z) (times : list Z) : bool :=
  forallb (fun t => t - duration <=? first) times.

(** ** Lookup by hash, records written *)

(** [resolve] as the specification words it: the credential whose stored
    lookup hash equals [lookupHash(publicId)].  The column the program
    fills with that hash is [api_secret_hash]: [generateApiCredentials]
    returns [apiKeyHash] under that name. *)
Definition resolve_by_lookup_hash {platform : Platform} (db : Database) (publicId : string)
    : option WebhookConfig.t :=
  match single (filter (fun r => String.eqb (WebhookDB.api_secret_hash r) (hashApiKey publicId))
                       (webhooks db)) with
  | Some data => Some (toWebhookConfig data)
  | None => None
  end.

Definition set_api_secret_hash (hash : string) (r : WebhookDB.t) : WebhookDB.t :=
  {| WebhookDB.id := WebhookDB.id r;
     WebhookDB.user_id := WebhookDB.user_id r;
     WebhookDB.name := WebhookDB.name r;
     WebhookDB.api_key := WebhookDB.api_key r;
     WebhookDB.api_secret_hash := hash;
     WebhookDB.encrypted_secret := WebhookDB.encrypted_secret r;
     WebhookDB.enabled := WebhookDB.enabled r;
     WebhookDB.allowed_symbols := WebhookDB.allowed_symbols r;
     WebhookDB.max_order_size := WebhookDB.max_order_size r;
     WebhookDB.daily_limit := WebhookDB.daily_limit r;
     WebhookDB.require_stop_loss := WebhookDB.require_stop_loss r;
     WebhookDB.execution_count := WebhookDB.execution_count r |}.

(** The same table with other hashes stored. *)
Definition rehashed (hash : WebhookDB.t -> string) (db : Database) : Database :=
  {| webhooks := map (fun r => set_api_secret_hash (hash r) r) (webhooks db);
     webhook_logs := webhook_logs db;
     rate_limits := rate_limits db |}.


(** ** Open windows, counts, credentials *)

(** At most one window of each kind is open at [now] for the pair: the
    [.single()] of [checkRateLimit] finds the row it is to count on. *)
Definition one_open_window (userId apiKey : string) (config : RateLimitConfig) (now : Z)
    (rows : list RateLimitDB.t) : Prop :=
  forall w, In w (windows config) ->
    (List.length (filter (in_window userId apiKey (Window.type w) (now - Window.duration w)) rows)
     <= 1)%nat.

(** No row counts more requests than the limit of its kind. *)
Definition counts_within_limits (config : RateLimitConfig) (rows : list RateLimitDB.t) : Prop :=
  forall r w, In r rows -> In w (windows config) ->
    RateLimitDB.window_type r = Window.type w ->
    RateLimitDB.request_count r <= Window.limit w.

(** The three rows a call opens when it finds no window. *)
Definition opened (userId apiKey : string) (now : Z) : list RateLimitDB.t :=
  [ RateLimitDB.mk userId apiKey "minute" now 1;
    RateLimitDB.mk userId apiKey "hour" now 1;
    RateLimitDB.mk userId apiKey "day" now 1 ].


(** No [:] in a string, as in hex and base64url text. *)
Fixpoint colon_free (s : string) : bool :=
  match s with
  | EmptyString => true
  | String c rest => negb (Ascii.eqb c ":") && colon_free rest
  end.

(** The number of [:] in a string. *)
Fixpoint colons (s : string) : nat :=
  match s with
  | EmptyString => 0%nat
  | String c rest => if Ascii.eqb c ":" then S (colons rest) else colons rest
  end.

(** The configuration the route [POST /api/webhooks] creates from the
    credentials it has generated; [settings] holds the fields it takes
    from the request. *)
Definition issued_config (credentials : ApiCredentials.t) (settings : WebhookConfig.t)
    : WebhookConfig.t :=
  {| WebhookConfig.id := WebhookConfig.id settings;
     WebhookConfig.userId := WebhookConfig.userId settings;
     WebhookConfig.name := WebhookConfig.name settings;
     WebhookConfig.apiKey := ApiCredentials.apiKey credentials;
     WebhookConfig.apiSecretHash := ApiCredentials.apiSecretHash credentials;
     WebhookConfig.encryptedSecret :=
       if String.eqb (ApiCredentials.encryptedSecret credentials) EmptyString then None
       else Some (ApiCredentials.encryptedSecret credentials);
     WebhookConfig.enabled := WebhookConfig.enabled settings;
     WebhookConfig.allowedSymbols := WebhookConfig.allowedSymbols settings;
     WebhookConfig.maxOrderSize := WebhookConfig.maxOrderSize settings;
     WebhookConfig.dailyLimit := WebhookConfig.dailyLimit settings;
     WebhookConfig.requireStopLoss := WebhookConfig.requireStopLoss settings;
     WebhookConfig.executionCount := 0 |}.

(** ** What the columns of [webhooks] take *)

(** A text holds no NUL character, which no column of text takes. *)
Definition no_nul (s : string) : bool :=
  negb (existsb (Ascii.eqb Ascii.zero) (list_ascii_of_string s)).

(** [VARCHAR(255)] *)
Definition varchar_255 (s : string) : bool :=
  (String.length s <=? 255)%nat && no_nul s.

(** [DECIMAL(20, 8)]: the number, rounded to eight decimals, has at most
    twelve digits before the point.  [NaN] is sent as [null]. *)
Definition decimal_20_8 (n : number) : bool :=
  match n with
  | NaN => true
  | Num q => negb (Qle_bool (1000000000000 - (5 # 1000000000)) (Qabs q))
  end.

(** [INTEGER] *)
Definition integer_32 (n : Z) : bool := (- 2 ^ 31 <=? n) && (n <? 2 ^ 31).

(** The row [createWebhook] inserts for the configuration violates no
    type of a column of [webhooks]. *)
Definition fits_columns (userId : string) (config : WebhookConfig.t) : bool :=
  varchar_255 userId
  && varchar_255 (WebhookConfig.name config)
  && varchar_255 (WebhookConfig.apiKey config)
  && varchar_255 (WebhookConfig.apiSecretHash config)
  && match WebhookConfig.encryptedSecret config with
     | Some s => no_nul s
     | None => true
     end
  && forallb no_nul (WebhookConfig.allowedSymbols config)
  && decimal_20_8 (WebhookConfig.maxOrderSize config)
  && decimal_20_8 (WebhookConfig.dailyLimit config)
  && integer_32 (WebhookConfig.executionCount config).

(** ** The turn of a window, seen from the table *)

(** What one turn of the loop of [checkRateLimit] that goes on has made of
    the rows of its kind: the one open row it found, below the limit,
    counts one more; or, no single open row found, a row that starts now
    with a count of one has been appended, unless the table held a row of
    the kind with that start, the refused insert being ignored. *)
Definition turned (userId apiKey : string) (now : Z) (w : Window.t)
    (rows rows' : list RateLimitDB.t) : Prop :=
  let kind := filter (of_window userId apiKey (Window.type w)) in
  let selected := in_window userId apiKey (Window.type w) (now - Window.duration w) in
  let row := RateLimitDB.mk userId apiKey (Window.type w) now 1 in
  match filter selected rows with
  | [existing] =>
      RateLimitDB.request_count existing < Window.limit w
      /\ kind rows'
         = map (fun r => if selected r
                         then set_request_count (RateLimitDB.request_count existing + 1) r
                         else r) (kind rows)
  | _ =>
      kind rows' = if existsb (same_window row) rows then kind rows else kind rows ++ [row]
  end.


(** * Examples *)

(** A platform to run examples on, with stand-ins for the functions of
    [Platform]: integers print in decimal, the digest of a message under a
    secret is the secret followed by the message, the encryption key is
    set and the decipher returns its data when the tag is [tag], the local
    day is the day of UTC, and the executor fills every order at the price
    asked. *)
Definition example_platform : Platform :=
  {| number_to_string := fun n =>
       match n with
       | NaN => "NaN"
       | Num q =>
           if (Qden q =? 1)%positive then NilZero.string_of_int (Z.to_int (Qnum q))
           else NilZero.string_of_int (Z.to_int (Qnum q)) ++ "/"
                ++ NilZero.string_of_int (Z.to_int (Z.pos (Qden q)))
       end%string;
     string_to_number := fun _ => NaN;
     hmac_sha256_hex := fun secret message => (secret ++ "/" ++ message)%string;
     sha256_hex := fun s => ("#" ++ s)%string;
     getEncryptionKey := Ret "00"%string;
     createDecipheriv := fun key iv data tag =>
       if String.eqb tag "tag" then Some data else None;
     local_midnight := fun now => now - now mod 86400000;
     executeOrder := fun payload userId =>
       Ret {| orderId := "order-1";
              executedPrice := get payload "price";
              executedQuantity := get payload "quantity" |} |}.

(** The sender's side: the alert with its signature appended. *)
Definition signed {platform : Platform} (secret : string) (alert : object) : object :=
  alert ++ [("signature"%string, Str (hmac_sha256_hex secret (signed_message alert)))].

(** The credential of the end-to-end scenario of the specification. *)
Definition example_webhook : WebhookDB.t :=
  {| WebhookDB.id := "webhook-1";
     WebhookDB.user_id := "user_1";
     WebhookDB.name := "strategy";
     WebhookDB.api_key := "wh_1";
     WebhookDB.api_secret_hash := "#wh_1";
     WebhookDB.encrypted_secret := Some "iv:whs_1:tag"%string;
     WebhookDB.enabled := true;
     WebhookDB.allowed_symbols := ["BTC"%string];
     WebhookDB.max_order_size := Num 5000;
     WebhookDB.daily_limit := Num 10000;
     WebhookDB.require_stop_loss := true;
     WebhookDB.execution_count := 0 |}.

(** The time of the examples, and an earlier time of the same day. *)
Definition example_now : Z := 1700000000000.

Definition example_today : Z := 1699990000000.

(** The alert of the scenario, sent at [example_now]. *)
Definition example_alert (quantity : Q) : object :=
  [("action", Str "buy"); ("symbol", Str "BTC");
   ("quantity", Number (Num quantity)); ("price", Number (Num 60000));
   ("stopLoss", Number (Num 58000)); ("apiKey", Str "wh_1");
   ("timestamp", Number (Num 1700000000))]%string.

(** The record of one execution of that alert. *)
Definition example_log (created_at : Z) : WebhookLogDB.t :=
  {| WebhookLogDB.webhook_id := "webhook-1";
     WebhookLogDB.request_payload := Some (example_alert (5 # 100));
     WebhookLogDB.response_payload := [("success"%string, Boolean true)];
     WebhookLogDB.order_id := Str "order-1";
     WebhookLogDB.status := "success";
     WebhookLogDB.error_message := Undefined;
     WebhookLogDB.created_at := created_at |}.

Definition example_db (logs : list WebhookLogDB.t) : Database :=
  {| webhooks := [example_webhook]; webhook_logs := logs; rate_limits := [] |}.

(** One alert in two orders of insertion, with two signatures. *)
Definition alert_as_sent : object :=
  [("action", Str "buy"); ("symbol", Str "BTC"); ("apiKey", Str "wh_1");
   ("signature", Str "s1")]%string.

Definition alert_as_received : object :=
  [("signature", Str "s2"); ("symbol", Str "BTC"); ("apiKey", Str "wh_1");
   ("action", Str "buy")]%string.

(** A hundred calls, one every 36 seconds from time [0], and the table
    they leave behind. *)
Definition busy_hour : list Z := map (fun i => Z.of_nat i * 36000) (seq 0 100).

Definition rows_after_busy_hour : list RateLimitDB.t :=
  snd (call_at_times "user_1" "wh_1" DEFAULT_RATE_LIMITS busy_hour []).


(** A table that holds an expired window of the caller and open windows of
    another key. *)
Definition rows_of_others : list RateLimitDB.t :=
  [ RateLimitDB.mk "user_1" "wh_1" "minute" (-90000) 10;
    RateLimitDB.mk "user_1" "wh_1" "hour" (-3700000) 100;
    RateLimitDB.mk "user_1" "wh_1" "day" (-86500000) 1000;
    RateLimitDB.mk "user_1" "wh_2" "minute" 0 10;
    RateLimitDB.mk "user_2" "wh_1" "day" 0 1000 ]%string.

(** The alert of the scenario with no [timestamp] field. *)
Definition undated_alert : object :=
  [("action", Str "buy"); ("symbol", Str "BTC");
   ("quantity", Number (Num (5 # 100))); ("price", Number (Num 60000));
   ("stopLoss", Number (Num 58000)); ("apiKey", Str "wh_1")]%string.

(** The alert of the scenario as sent 400 seconds before [example_now]. *)
Definition late_alert : object :=
  [("action", Str "buy"); ("symbol", Str "BTC");
   ("quantity", Number (Num (5 # 100))); ("price", Number (Num 60000));
   ("stopLoss", Number (Num 58000)); ("apiKey", Str "wh_1");
   ("timestamp", Number (Num 1699999600))]%string.

(** A market order of 6000 units with no reference price. *)
Definition priceless_alert : object :=
  [("action", Str "buy"); ("symbol", Str "BTC");
   ("quantity", Number (Num 6000)); ("orderType", Str "market");
   ("stopLoss", Number (Num 58000)); ("apiKey", Str "wh_1");
   ("timestamp", Number (Num 1700000000))]%string.

(** A credential issued before secrets were encrypted, alone in its
    table. *)
Definition legacy_webhook : WebhookDB.t :=
  {| WebhookDB.id := "webhook-0";
     WebhookDB.user_id := "user_1";
     WebhookDB.name := "legacy";
     WebhookDB.api_key := "wh_1";
     WebhookDB.api_secret_hash := "$2a$10$hash";
     WebhookDB.encrypted_secret := None;
     WebhookDB.enabled := true;
     WebhookDB.allowed_symbols := [];
     WebhookDB.max_order_size := Num 5000;
     WebhookDB.daily_limit := Num 10000;
     WebhookDB.require_stop_loss := false;
     WebhookDB.execution_count := 0 |}.

Definition legacy_db : Database :=
  {| webhooks := [legacy_webhook]; webhook_logs := []; rate_limits := [] |}.

(** The alert of the scenario under a signature that is not the sender's. *)
Definition forged_alert : object :=
  example_alert 1 ++ [("signature"%string, Str "forged")].

(** An alert for the key [wh_2]. *)
Definition alert_of_second_key : object :=
  [("action", Str "buy"); ("symbol", Str "BTC"); ("quantity", Number (Num 1));
   ("apiKey", Str "wh_2"); ("timestamp", Number (Num 1700000000))]%string.

(** The cipher that [example_platform] deciphers. *)
Definition example_encrypt (iv plainSecret : string) : result (string * string) :=
  Ret (plainSecret, "tag"%string).

(** Limits of zero requests. *)
Definition no_requests : RateLimitConfig :=
  {| maxRequestsPerMinute := 0; maxRequestsPerHour := 0; maxRequestsPerDay := 0 |}.


(** * Canonical message *)

(** ** Sorting keys *)

Lemma string_leb_trans s1 : forall s2 s3,
  String.leb s1 s2 = true -> String.leb s2 s3 = true -> String.leb s1 s3 = true.
Proof.
  unfold String.leb.
  induction s1 as [|a s1 IH]; intros [|b s2] [|c s3]; simpl; try congruence.
  unfold Ascii.compare.
  destruct (N.compare_spec (N_of_ascii a) (N_of_ascii b)) as [E1|L1|G1];
  destruct (N.compare_spec (N_of_ascii b) (N_of_ascii c)) as [E2|L2|G2];
  destruct (N.compare_spec (N_of_ascii a) (N_of_ascii c)) as [E3|L3|G3];
  try congruence; try lia; apply IH.
Qed.

Lemma string_leb_false a b : String.leb a b = false -> String.leb b a = true.
Proof. destruct (String.leb_total a b); congruence. Qed.

Lemma insert_sorted_comm a b l :
  insert_sorted a (insert_sorted b l) = insert_sorted b (insert_sorted a l).
Proof.
  induction l as [|x l IH]; simpl.
  - destruct (String.leb a b) eqn:Hab, (String.leb b a) eqn:Hba; try reflexivity.
    + now rewrite (String.leb_antisym _ _ Hab Hba).
    + apply string_leb_false in Hab. congruence.
  - destruct (String.leb b x) eqn:Hbx, (String.leb a x) eqn:Hax; simpl;
      rewrite ?Hbx, ?Hax.
    + destruct (String.leb a b) eqn:Hab, (String.leb b a) eqn:Hba; try reflexivity.
      * now rewrite (String.leb_antisym _ _ Hab Hba).
      * apply string_leb_false in Hab. congruence.
    + assert (String.leb a b = false) as ->.
      { destruct (String.leb a b) eqn:Hab; [|reflexivity].
        now rewrite (string_leb_trans _ _ _ Hab Hbx) in Hax. }
      reflexivity.
    + assert (String.leb b a = false) as ->.
      { destruct (String.leb b a) eqn:Hba; [|reflexivity].
        now rewrite (string_leb_trans _ _ _ Hba Hax) in Hbx. }
      reflexivity.
    + now rewrite IH.
Qed.

Lemma sort_Permutation_eq l1 l2 : Permutation l1 l2 -> sort l1 = sort l2.
Proof.
  induction 1; simpl.
  - reflexivity.
  - now f_equal.
  - apply insert_sorted_comm.
  - congruence.
Qed.

Lemma insert_sorted_Permutation a l : Permutation (insert_sorted a l) (a :: l).
Proof.
  induction l as [|x l IH]; simpl; [reflexivity|].
  destruct (String.leb a x); [reflexivity|].
  rewrite IH. apply perm_swap.
Qed.

Lemma sort_Permutation l : Permutation (sort l) l.
Proof.
  induction l as [|x l IH]; simpl; [reflexivity|].
  rewrite insert_sorted_Permutation. now constructor.
Qed.

Lemma insert_sorted_ascending a l : ascending l -> ascending (insert_sorted a l).
Proof.
  unfold ascending. induction 1 as [|x l Hl IH Hx]; simpl.
  - repeat constructor.
  - destruct (String.leb a x) eqn:Hax.
    + constructor; [now constructor|].
      constructor; [assumption|].
      eapply Forall_impl; [|exact Hx]. intros y Hy. simpl in Hy.
      eapply string_leb_trans; eassumption.
    + constructor; [assumption|].
      eapply Permutation_Forall; [symmetry; apply insert_sorted_Permutation|].
      constructor; [now apply string_leb_false|assumption].
Qed.

Lemma sort_ascending l : ascending (sort l).
Proof.
  induction l; simpl; [constructor|now apply insert_sorted_ascending].
Qed.

(** ** Objects *)

Lemma get_not_key o k : ~ In k (keys o) -> get o k = Undefined.
Proof.
  induction o as [|[k' v] o IH]; simpl; [reflexivity|].
  intros H. destruct (String.eqb_spec k' k); [tauto|]. apply IH. tauto.
Qed.

Lemma get_Permutation o1 o2 k :
  NoDup (keys o1) -> Permutation o1 o2 -> get o1 k = get o2 k.
Proof.
  intros Hnd Hp. induction Hp as [|[k' v] o1 o2 Hp IH| [k1 v1] [k2 v2] o | o1 o2 o3 H12 IH12 H23 IH23].
  - reflexivity.
  - simpl. inversion Hnd; subst. now rewrite IH.
  - simpl. destruct (String.eqb_spec k1 k), (String.eqb_spec k2 k); try reflexivity.
    subst. inversion Hnd; subst. simpl in *. tauto.
  - rewrite IH12 by assumption. apply IH23.
    unfold keys. eapply Permutation_NoDup; [|exact Hnd].
    now apply Permutation_map.
Qed.

Lemma keys_omit_NoDup key o : NoDup (keys o) -> NoDup (keys (omit key o)).
Proof.
  unfold keys, omit. induction o as [|[k v] o IH]; simpl; intros H; [constructor|].
  inversion H; subst.
  destruct (negb (String.eqb k key)); simpl; [|now apply IH].
  constructor; [|now apply IH].
  intros Hin. apply in_map_iff in Hin as [[k' v'] [Hk Hin]]. simpl in Hk. subst k'.
  apply filter_In in Hin as [Hin _]. apply H2.
  apply in_map_iff. now exists (k, v').
Qed.

Lemma get_omit key o k : k <> key -> get (omit key o) k = get o k.
Proof.
  intros Hk. unfold omit. induction o as [|[k' v] o IH]; simpl; [reflexivity|].
  destruct (String.eqb_spec k' key); simpl.
  - subst. destruct (String.eqb_spec key k); [congruence|assumption].
  - rewrite IH. reflexivity.
Qed.

Lemma omit_keys key o : ~ In key (keys (omit key o)).
Proof.
  unfold keys, omit. intros Hin.
  apply in_map_iff in Hin as [[k v] [Hk Hin]]. simpl in Hk. subst.
  apply filter_In in Hin as [_ Hin]. simpl in Hin.
  now rewrite String.eqb_refl in Hin.
Qed.

Section Canonical.
Context {platform : Platform}.

Lemma createSignatureMessage_Permutation data1 data2 :
  NoDup (keys data1) -> Permutation data1 data2 ->
  createSignatureMessage data1 = createSignatureMessage data2.
Proof.
  intros Hnd Hp. unfold createSignatureMessage.
  rewrite (sort_Permutation_eq (keys data1) (keys data2))
    by (unfold keys; now apply Permutation_map).
  f_equal. apply map_ext. intros key.
  now rewrite (get_Permutation data1 data2 key Hnd Hp).
Qed.

Lemma signed_message_createSignatureMessage payload :
  signed_message payload = createSignatureMessage (omit "signature" payload).
Proof. reflexivity. Qed.

(** Claim C8.  Canonicalization is deterministic and independent of the
    order of insertion: two payloads with distinct keys that hold the same
    key/value pairs once [signature] is set aside, in any order, have the
    same canonical message, so that [verifyHmacSignature] reaches the same
    verdict on both; and the message is the keys in ascending order, each
    rendered [key=value], joined by [&]. *)
Theorem canonical_message_order_independent (payload1 payload2 : object) :
  NoDup (keys payload1) ->
  Permutation (omit "signature" payload1) (omit "signature" payload2) ->
  signed_message payload1 = signed_message payload2
  /\ (forall secret signature,
        verifyHmacSignature payload1 signature secret
        = verifyHmacSignature payload2 signature secret)
  /\ exists sortedKeys,
       Permutation sortedKeys (keys (omit "signature" payload1))
       /\ ascending sortedKeys
       /\ signed_message payload1
          = join "&" (map (fun key => (key ++ "=" ++ to_string (get payload1 key))%string)
                          sortedKeys).
Proof.
  intros Hnd Hp.
  assert (signed_message payload1 = signed_message payload2) as Heq.
  { rewrite !signed_message_createSignatureMessage.
    apply createSignatureMessage_Permutation; [now apply keys_omit_NoDup|assumption]. }
  split; [exact Heq|]. split.
  - intros secret signature. unfold verifyHmacSignature. now rewrite Heq.
  - exists (sort (keys (omit "signature" payload1))).
    split; [apply sort_Permutation|]. split; [apply sort_ascending|].
    unfold signed_message. f_equal. apply map_ext_in. intros key Hin.
    rewrite get_omit; [reflexivity|].
    intros ->. apply (omit_keys "signature" payload1).
    eapply Permutation_in; [apply sort_Permutation|exact Hin].
Qed.

End Canonical.

Lemma canonical_message_order_independent_witness :
  @signed_message example_platform alert_as_sent
  = @signed_message example_platform alert_as_received
  /\ @signed_message example_platform alert_as_sent = "action=buy&apiKey=wh_1&symbol=BTC"%string.
Proof.
  split; [|reflexivity].
  refine (proj1 (@canonical_message_order_independent example_platform
                   alert_as_sent alert_as_received _ _)).
  - unfold alert_as_sent, keys; simpl.
    repeat (constructor; [simpl; intuition discriminate|]). constructor.
  - simpl.
    apply Permutation_trans with
      [("symbol", Str "BTC"); ("action", Str "buy"); ("apiKey", Str "wh_1")]%string.
    + apply perm_swap.
    + apply perm_skip. apply perm_swap.
Defined.

(** * Rate limiter *)

(** ** Filters *)

Lemma in_window_of_window u k ty thr r :
  in_window u k ty thr r = of_window u k ty r && (thr <=? RateLimitDB.window_start r).
Proof. reflexivity. Qed.

Lemma filter_in_window_later u k ty thr thr' rows :
  thr <= thr' ->
  filter (in_window u k ty thr') rows
  = filter (fun r => thr' <=? RateLimitDB.window_start r)
           (filter (in_window u k ty thr) rows).
Proof.
  intros Hle. induction rows as [|r rows IH]; simpl; [reflexivity|].
  rewrite !in_window_of_window.
  destruct (of_window u k ty r); simpl; [|exact IH].
  destruct (thr' <=? RateLimitDB.window_start r) eqn:E1,
           (thr <=? RateLimitDB.window_start r) eqn:E2; simpl; rewrite ?E1, ?IH;
    try reflexivity.
  apply Z.leb_le in E1. apply Z.leb_gt in E2. lia.
Qed.

Lemma filter_map_stable {A : Type} (P : A -> bool) (f : A -> A) l :
  (forall x, P (f x) = P x) -> filter P (map f l) = map f (filter P l).
Proof.
  intros H. induction l as [|x l IH]; simpl; [reflexivity|].
  rewrite H. destruct (P x); simpl; now rewrite IH.
Qed.

Lemma filter_map_untouched {A : Type} (P : A -> bool) (f : A -> A) l :
  (forall x, P (f x) = P x) -> (forall x, P x = true -> f x = x) ->
  filter P (map f l) = filter P l.
Proof.
  intros H1 H2. rewrite filter_map_stable by assumption.
  induction l as [|x l IH]; simpl; [reflexivity|].
  destruct (P x) eqn:E; simpl; [|exact IH]. now rewrite H2, IH.
Qed.

Lemma filter_filter_implied {A : Type} (P Q : A -> bool) l :
  (forall x, P x = true -> Q x = true) -> filter P (filter Q l) = filter P l.
Proof.
  intros H. induction l as [|x l IH]; simpl; [reflexivity|].
  destruct (Q x) eqn:E; simpl.
  - now rewrite IH.
  - destruct (P x) eqn:E'; [|exact IH]. apply H in E'. congruence.
Qed.

Lemma existsb_filter_implied {A : Type} (P K : A -> bool) l :
  (forall x, P x = true -> K x = true) -> existsb P (filter K l) = existsb P l.
Proof.
  intros H. induction l as [|x l IH]; simpl; [reflexivity|].
  destruct (K x) eqn:E; simpl.
  - now rewrite IH.
  - destruct (P x) eqn:E'; [|exact IH]. apply H in E'. congruence.
Qed.

Lemma of_window_set_request_count u k ty n r :
  of_window u k ty (set_request_count n r) = of_window u k ty r.
Proof. reflexivity. Qed.

Lemma in_window_set_request_count u k ty thr n r :
  in_window u k ty thr (set_request_count n r) = in_window u k ty thr r.
Proof. reflexivity. Qed.

Lemma no_open_window_no_duplicate u k ty thr now rows :
  filter (in_window u k ty thr) rows = [] -> thr <= now ->
  existsb (same_window (RateLimitDB.mk u k ty now 1)) rows = false.
Proof.
  intros Hf Hle. induction rows as [|r rows IH]; simpl in *; [reflexivity|].
  rewrite in_window_of_window in Hf. unfold same_window, of_window in *. simpl.
  rewrite (String.eqb_sym u), (String.eqb_sym k), (String.eqb_sym ty).
  destruct (String.eqb (RateLimitDB.user_id r) u
            && String.eqb (RateLimitDB.api_key r) k
            && String.eqb (RateLimitDB.window_type r) ty); simpl in *.
  - destruct (Z.leb_spec thr (RateLimitDB.window_start r)); [discriminate|].
    destruct (Z.eqb_spec now (RateLimitDB.window_start r)); [lia|].
    simpl. now apply IH.
  - now apply IH.
Qed.

(** ** One turn of the loop *)


Lemma check_window_opens u k ty D L now rows :
  0 <= D ->
  filter (in_window u k ty (now - D)) rows = [] ->
  check_window u k now (Window.mk ty D L) rows
  = (true, rows ++ [RateLimitDB.mk u k ty now 1])
  /\ tracks u k ty D now (rows ++ [RateLimitDB.mk u k ty now 1]) (Some (now, 1)).
Proof.
  intros HD Hf. unfold check_window. simpl. rewrite Hf. simpl.
  unfold insert_rate_limit.
  rewrite (no_open_window_no_duplicate u k ty (now - D) now rows Hf) by lia.
  split; [reflexivity|]. simpl. split; [lia|].
  rewrite filter_app, Hf. simpl.
  unfold in_window. simpl. rewrite !String.eqb_refl. simpl.
  destruct (Z.leb_spec (now - D) now); [reflexivity|lia].
Qed.



(** A turn leaves every row of the other counters as it was, in place. *)
Lemma check_window_frame u k now w rows :
  filter (fun r => negb (of_window u k (Window.type w) r)) (snd (check_window u k now w rows))
  = filter (fun r => negb (of_window u k (Window.type w) r)) rows.
Proof.
  unfold check_window.
  destruct (single _) as [existing|].
  - destruct (_ <=? _); simpl; [reflexivity|].
    apply filter_map_untouched.
    + intros r. destruct (in_window _ _ _ _ r); reflexivity.
    + intros r Hr. rewrite in_window_of_window.
      destruct (of_window u k (Window.type w) r); [discriminate|reflexivity].
  - unfold insert_rate_limit. destruct (existsb _ _); simpl; [reflexivity|].
    rewrite filter_app. simpl. unfold of_window. simpl.
    rewrite !String.eqb_refl. simpl. apply app_nil_r.
Qed.











Lemma spaced_app_l n D l1 l2 :
  spaced n D (l1 ++ l2) = true -> spaced n D l1 = true.
Proof.
  induction l1 as [|t l1 IH]; [trivial|].
  intros H. change ((t :: l1) ++ l2) with (t :: (l1 ++ l2)) in H.
  cbn [spaced] in *. apply andb_prop in H as [H1 H2].
  rewrite (IH H2), andb_true_r.
  destruct (nth_error (t :: l1) n) as [t'|] eqn:E; [|reflexivity].
  change (t :: l1 ++ l2) with ((t :: l1) ++ l2) in H1.
  rewrite nth_error_app1 in H1 by (apply nth_error_Some; congruence).
  now rewrite E in H1.
Qed.





Lemma within_app D s l1 l2 :
  within D s (l1 ++ l2) = within D s l1 && within D s l2.
Proof. apply forallb_app. Qed.




(** ** No more than the limit within a window *)













(** The turn that answers [false] found its window at the limit and wrote
    nothing. *)
Lemma check_window_denies u k now w rows rows' :
  check_window u k now w rows = (false, rows') ->
  rows' = rows
  /\ exists existing,
       single (filter (in_window u k (Window.type w) (now - Window.duration w)) rows)
       = Some existing
       /\ Window.limit w <= RateLimitDB.request_count existing.
Proof.
  unfold check_window.
  destruct (single _) as [existing|].
  - destruct (Z.leb_spec (Window.limit w) (RateLimitDB.request_count existing)) as [Hle|Hlt];
      intros E; [|discriminate].
    injection E as <-. split; [reflexivity|]. now exists existing.
  - unfold insert_rate_limit. destruct (existsb _ _); simpl; discriminate.
Qed.

Lemma check_window_keeps (P : RateLimitDB.t -> bool) u k now w rows :
  (forall r, P r = true -> of_window u k (Window.type w) r = false) ->
  filter P (snd (check_window u k now w rows)) = filter P rows.
Proof.
  intros HP.
  rewrite <- (filter_filter_implied P (fun r => negb (of_window u k (Window.type w) r))
                (snd (check_window u k now w rows))).
  - rewrite check_window_frame. apply filter_filter_implied.
    intros r Hr. now rewrite (HP r Hr).
  - intros r Hr. now rewrite (HP r Hr).
Qed.

Lemma of_window_other_type u k ty ty' r :
  ty <> ty' -> of_window u k ty' r = true -> of_window u k ty r = false.
Proof.
  unfold of_window. intros Hne H.
  apply andb_prop in H as [_ H]. apply String.eqb_eq in H.
  destruct (String.eqb_spec (RateLimitDB.window_type r) ty); [congruence|].
  apply andb_false_r.
Qed.

Lemma of_window_other_pair u k u' k' ty ty' r :
  u' <> u \/ k' <> k -> of_window u' k' ty' r = true -> of_window u k ty r = false.
Proof.
  unfold of_window. intros Hne H.
  apply andb_prop in H as [H _]. apply andb_prop in H as [Hu Hk].
  apply String.eqb_eq in Hu, Hk.
  destruct (String.eqb_spec (RateLimitDB.user_id r) u); [|reflexivity].
  destruct (String.eqb_spec (RateLimitDB.api_key r) k); [|reflexivity].
  destruct Hne; congruence.
Qed.

Lemma window_types_differ config passed later w0 w' :
  windows config = passed ++ later -> In w0 passed -> In w' later ->
  Window.type w0 <> Window.type w'.
Proof.
  unfold windows. intros E H0 H'.
  destruct passed as [|p1 [|p2 [|p3 [|p4 passed]]]]; cbn [app] in E;
    try (injection E as <- <- <-); try (injection E as <- <-);
    try (injection E as <-); try discriminate; subst;
    cbn [In] in *; intuition (subst; cbn [Window.type]; discriminate).
Qed.

Lemma in_window_implies_of_window u k ty thr r :
  in_window u k ty thr r = true -> of_window u k ty r = true.
Proof. rewrite in_window_of_window. intros H. now apply andb_prop in H as [H _]. Qed.

Lemma same_window_of_window u k ty now n r :
  same_window (RateLimitDB.mk u k ty now n) r = true -> of_window u k ty r = true.
Proof.
  unfold same_window, of_window. cbn. intros H.
  apply andb_prop in H as [H _]. apply andb_prop in H as [H Ht].
  apply andb_prop in H as [Hu Hk].
  rewrite (String.eqb_sym _ u), (String.eqb_sym _ k), (String.eqb_sym _ ty).
  now rewrite Hu, Hk, Ht.
Qed.

(** A turn that goes on has counted on the row it found or opened one. *)
Lemma check_window_turned u k now w rows rows1 :
  check_window u k now w rows = (true, rows1) -> turned u k now w rows rows1.
Proof.
  unfold check_window, turned. cbv zeta.
  assert (forall f : RateLimitDB.t -> RateLimitDB.t,
            (forall r, of_window u k (Window.type w) (f r) = of_window u k (Window.type w) r) ->
            filter (of_window u k (Window.type w)) (map f rows)
            = map f (filter (of_window u k (Window.type w)) rows)) as Hmap
    by (intros f Hf; now apply filter_map_stable).
  assert ((let '(rows', error) :=
               insert_rate_limit
                 {| RateLimitDB.user_id := u; RateLimitDB.api_key := k;
                    RateLimitDB.window_type := Window.type w;
                    RateLimitDB.window_start := now; RateLimitDB.request_count := 1 |} rows in
             match error with
             | Some code => if String.eqb code "23505" then (true, rows') else (false, rows')
             | None => (true, rows')
             end) = (true, rows1) ->
            filter (of_window u k (Window.type w)) rows1
            = (if existsb (same_window (RateLimitDB.mk u k (Window.type w) now 1)) rows
               then filter (of_window u k (Window.type w)) rows
               else filter (of_window u k (Window.type w)) rows
                    ++ [RateLimitDB.mk u k (Window.type w) now 1])) as Hins.
  { unfold insert_rate_limit. destruct (existsb _ rows); simpl; intros E;
      injection E as <-; [reflexivity|].
    rewrite filter_app. cbn [filter]. unfold of_window at 2. cbn.
    now rewrite !String.eqb_refl. }
  destruct (filter (in_window u k (Window.type w) (now - Window.duration w)) rows)
    as [|existing [|r' l]] eqn:Hf; cbn [single].
  - exact Hins.
  - destruct (Z.leb_spec (Window.limit w) (RateLimitDB.request_count existing));
      [discriminate|].
    intros E. injection E as <-. split; [assumption|].
    apply Hmap. intros r. destruct (in_window _ _ _ _ r); reflexivity.
  - exact Hins.
Qed.

Lemma turned_kind u k now w rows rows1 rows_a rows_b :
  filter (of_window u k (Window.type w)) rows_a = filter (of_window u k (Window.type w)) rows ->
  filter (of_window u k (Window.type w)) rows_b = filter (of_window u k (Window.type w)) rows1 ->
  turned u k now w rows rows1 -> turned u k now w rows_a rows_b.
Proof.
  intros Ha Hb. unfold turned. cbv zeta.
  assert (filter (in_window u k (Window.type w) (now - Window.duration w)) rows_a
          = filter (in_window u k (Window.type w) (now - Window.duration w)) rows) as ->.
  { rewrite <- (filter_filter_implied _ (of_window u k (Window.type w)) rows_a)
      by apply in_window_implies_of_window.
    rewrite Ha. apply filter_filter_implied, in_window_implies_of_window. }
  assert (existsb (same_window (RateLimitDB.mk u k (Window.type w) now 1)) rows_a
          = existsb (same_window (RateLimitDB.mk u k (Window.type w) now 1)) rows) as ->.
  { rewrite <- (existsb_filter_implied _ (of_window u k (Window.type w)) rows_a)
      by apply same_window_of_window.
    rewrite Ha. apply existsb_filter_implied, same_window_of_window. }
  now rewrite Ha, Hb.
Qed.

Lemma check_windows_denies u k now ws :
  NoDup (map Window.type ws) ->
  forall rows rows',
    check_windows u k now ws rows = (false, rows') ->
    exists passed w later,
      ws = passed ++ w :: later
      /\ (exists existing,
            single (filter (in_window u k (Window.type w) (now - Window.duration w)) rows')
            = Some existing
            /\ Window.limit w <= RateLimitDB.request_count existing)
      /\ (forall P : RateLimitDB.t -> bool,
            (forall w0 r, In w0 passed -> P r = true ->
                          of_window u k (Window.type w0) r = false) ->
            filter P rows' = filter P rows)
      /\ (forall w0, In w0 passed -> turned u k now w0 rows rows')
      /\ (passed = [] -> rows' = rows).
Proof.
  induction ws as [|w ws IH]; intros Hnd rows rows' H; cbn [check_windows] in H.
  - discriminate.
  - cbn [map] in Hnd. inversion Hnd as [|? ? Hnotin Hnd']; subst.
    destruct (check_window u k now w rows) as [go_on rows1] eqn:E.
    destruct go_on.
    + destruct (IH Hnd' rows1 rows' H) as (passed & w' & later & -> & Hd & Hk & Ht & _).
      assert (forall w0, In w0 passed -> Window.type w <> Window.type w0) as Hty.
      { intros w0 Hw0 Heq. apply Hnotin. rewrite Heq. apply in_map.
        apply in_or_app. now left. }
      assert (forall ty, Window.type w <> ty ->
                filter (of_window u k ty) rows1 = filter (of_window u k ty) rows) as Hkeep.
      { intros ty Hne.
        replace rows1 with (snd (check_window u k now w rows)) by now rewrite E.
        apply check_window_keeps. intros r Hr.
        apply (of_window_other_type u k (Window.type w) ty); assumption. }
      exists (w :: passed), w', later. split; [reflexivity|]. split; [exact Hd|].
      split; [|split; [|discriminate]].
      * intros P HP. rewrite Hk by (intros; eapply HP; [right|]; eassumption).
        replace rows1 with (snd (check_window u k now w rows)) by now rewrite E.
        apply check_window_keeps. intros r Hr. apply (HP w r); [now left|assumption].
      * intros w0 [<-|Hw0].
        -- apply (turned_kind u k now w rows rows1); [reflexivity| |].
           ++ apply Hk. intros w0 r Hw0 Hr.
              apply (of_window_other_type u k (Window.type w0) (Window.type w));
                [|exact Hr].
              intros Heq. now apply (Hty w0 Hw0).
           ++ now apply check_window_turned.
        -- apply (turned_kind u k now w0 rows1 rows'); [|reflexivity|now apply Ht].
           symmetry. apply Hkeep. now apply Hty.
    + injection H as <-.
      apply check_window_denies in E as [-> Hd].
      exists [], w, ws. repeat split; auto. intros w0 [].
Qed.

(** Claim C5, as the code has it.  When [checkRateLimit] answers [false],
    one window of the loop has found its row at the limit; the rows of that
    window and of every window after it in the loop are as before the call,
    and so are the rows of every other user and key.  Each window before it
    in the loop has had its turn: the one open row found for it, below its
    limit, counts one more, or a row that starts now has been opened for it
    (unless the table held a row of the kind with that start already).  A
    denial by the first window, the minute, leaves the table unchanged. *)
Theorem checkRateLimit_denial_keeps_unvisited_windows
    (userId apiKey : string) (config : RateLimitConfig) (now : Z)
    (rows rows' : list RateLimitDB.t) :
  checkRateLimit userId apiKey config now rows = (false, rows') ->
  exists passed w later,
    windows config = passed ++ w :: later
    /\ (exists existing,
          single (filter (in_window userId apiKey (Window.type w)
                                    (now - Window.duration w)) rows') = Some existing
          /\ Window.limit w <= RateLimitDB.request_count existing)
    /\ (forall w', In w' (w :: later) ->
          filter (of_window userId apiKey (Window.type w')) rows'
          = filter (of_window userId apiKey (Window.type w')) rows)
    /\ (forall userId' apiKey' type,
          userId' <> userId \/ apiKey' <> apiKey ->
          filter (of_window userId' apiKey' type) rows'
          = filter (of_window userId' apiKey' type) rows)
    /\ (forall w0, In w0 passed -> turned userId apiKey now w0 rows rows')
    /\ (passed = [] -> rows' = rows).
Proof.
  intros H. apply check_windows_denies in H
    as (passed & w & later & E & Hd & Hk & Ht & Hnil).
  2:{ unfold windows. cbn [map Window.type].
      repeat constructor; cbn [In]; intuition discriminate. }
  exists passed, w, later. split; [exact E|]. split; [exact Hd|].
  split; [|split; [|split; [exact Ht|exact Hnil]]].
  - intros w' Hw'. apply Hk. intros w0 r Hw0.
    apply of_window_other_type.
    eapply window_types_differ; eassumption.
  - intros u' k' ty Hne. apply Hk. intros w0 r _.
    now apply of_window_other_pair.
Qed.

Lemma checkRateLimit_denial_keeps_unvisited_windows_witness :
  exists passed w later,
    windows DEFAULT_RATE_LIMITS = passed ++ w :: later
    /\ (exists existing,
          single (filter (in_window "user_1" "wh_1" (Window.type w)
                                    (3600000 - Window.duration w))
                         (snd (checkRateLimit "user_1" "wh_1" DEFAULT_RATE_LIMITS 3600000
                                 rows_after_busy_hour))) = Some existing
          /\ Window.limit w <= RateLimitDB.request_count existing)
    /\ (forall w', In w' (w :: later) ->
          filter (of_window "user_1" "wh_1" (Window.type w'))
                 (snd (checkRateLimit "user_1" "wh_1" DEFAULT_RATE_LIMITS 3600000
                         rows_after_busy_hour))
          = filter (of_window "user_1" "wh_1" (Window.type w')) rows_after_busy_hour)
    /\ (forall userId' apiKey' type,
          userId' <> "user_1"%string \/ apiKey' <> "wh_1"%string ->
          filter (of_window userId' apiKey' type)
                 (snd (checkRateLimit "user_1" "wh_1" DEFAULT_RATE_LIMITS 3600000
                         rows_after_busy_hour))
          = filter (of_window userId' apiKey' type) rows_after_busy_hour)
    /\ (forall w0, In w0 passed ->
          turned "user_1" "wh_1" 3600000 w0 rows_after_busy_hour
            (snd (checkRateLimit "user_1" "wh_1" DEFAULT_RATE_LIMITS 3600000
                    rows_after_busy_hour)))
    /\ (passed = [] ->
          snd (checkRateLimit "user_1" "wh_1" DEFAULT_RATE_LIMITS 3600000
                 rows_after_busy_hour) = rows_after_busy_hour).
Proof.
  apply (checkRateLimit_denial_keeps_unvisited_windows "user_1" "wh_1"
           DEFAULT_RATE_LIMITS 3600000 rows_after_busy_hour).
  vm_compute. reflexivity.
Defined.

(** Claim C5, as the specification has it, fails: after a hundred calls
    spread over an hour, the next call is denied by the hour window once
    the minute window has opened a new row for it. *)
Lemma checkRateLimit_denial_writes_minute_window :
  let '(ok, rows') :=
    checkRateLimit "user_1" "wh_1" DEFAULT_RATE_LIMITS 3600000 rows_after_busy_hour in
  ok = false
  /\ List.length rows' = S (List.length rows_after_busy_hour)
  /\ rows' <> rows_after_busy_hour.
Proof.
  vm_compute. repeat split. intros H. discriminate H.
Qed.

(** * The handler *)

Section Handler.
Context {platform : Platform}.

Lemma handed_respond status error db handed :
  Outcome.handed (respond status error db handed) = handed.
Proof. reflexivity. Qed.

Lemma handed_on_error now payload message db handed :
  Outcome.handed (on_error now payload message db handed) = handed.
Proof.
  unfold on_error.
  destruct (includes message "Insufficient balance"); [reflexivity|].
  destruct (includes message "Market closed"); reflexivity.
Qed.

(** A request that passes every stage of the handler is handed to the
    executor. *)
Lemma POST_hands_over now payload db webhookConfig rows :
  missing_required_fields payload = false ->
  timestamp_rejected now payload = false ->
  verifyWebhookSignature db payload = true ->
  getUserFromApiKey db (to_string (get payload "apiKey")) = Some webhookConfig ->
  WebhookConfig.enabled webhookConfig = true ->
  checkRateLimit (WebhookConfig.userId webhookConfig) (to_string (get payload "apiKey"))
                 DEFAULT_RATE_LIMITS now (rate_limits db) = (true, rows) ->
  symbol_rejected webhookConfig payload = false ->
  order_size_rejected webhookConfig payload = false ->
  stop_loss_rejected webhookConfig payload = false ->
  Outcome.handed (POST now (Some payload) db) = [(payload, WebhookConfig.userId webhookConfig)].
Proof.
  intros H1 H2 H3 H4 H5 H6 H7 H8 H9. unfold POST.
  rewrite H1, H2, H3, H4, H5, H6, H7, H8, H9. cbn [negb].
  destruct (executeOrder payload (WebhookConfig.userId webhookConfig)).
  - reflexivity.
  - apply handed_on_error.
Qed.

(** Claim C1, on the code.  The handler has no stage for the daily limit: a
    request that passes the stages it has is handed to the executor also
    when its notional, added to the notional of today's successful
    executions ([currentUsage] of [checkDailyLimit]), exceeds
    [dailyLimit]. *)
Theorem POST_executes_beyond_the_daily_limit now payload db webhookConfig rows :
  missing_required_fields payload = false ->
  timestamp_rejected now payload = false ->
  verifyWebhookSignature db payload = true ->
  getUserFromApiKey db (to_string (get payload "apiKey")) = Some webhookConfig ->
  WebhookConfig.enabled webhookConfig = true ->
  checkRateLimit (WebhookConfig.userId webhookConfig) (to_string (get payload "apiKey"))
                 DEFAULT_RATE_LIMITS now (rate_limits db) = (true, rows) ->
  symbol_rejected webhookConfig payload = false ->
  order_size_rejected webhookConfig payload = false ->
  stop_loss_rejected webhookConfig payload = false ->
  num_gt (num_add (DailyLimit.currentUsage (checkDailyLimit db now (WebhookConfig.id webhookConfig)))
                  (orderValue payload))
         (WebhookConfig.dailyLimit webhookConfig) = true ->
  Outcome.handed (POST now (Some payload) db) = [(payload, WebhookConfig.userId webhookConfig)].
Proof. intros. eapply POST_hands_over; eassumption. Qed.

(** Claim C9, on the code.  The handler tests [!payload.quantity] alone: a
    request whose quantity is a negative number, which
    [validateWebhookPayload] refuses, passes the required-field stage and,
    when the later stages pass, is handed to the executor. *)
Theorem POST_executes_negative_quantity now payload db webhookConfig rows quantity :
  get payload "quantity" = Number (Num quantity) -> (quantity < 0)%Q ->
  truthy (get payload "action") = true ->
  truthy (get payload "symbol") = true ->
  truthy (get payload "apiKey") = true ->
  timestamp_rejected now payload = false ->
  verifyWebhookSignature db payload = true ->
  getUserFromApiKey db (to_string (get payload "apiKey")) = Some webhookConfig ->
  WebhookConfig.enabled webhookConfig = true ->
  checkRateLimit (WebhookConfig.userId webhookConfig) (to_string (get payload "apiKey"))
                 DEFAULT_RATE_LIMITS now (rate_limits db) = (true, rows) ->
  symbol_rejected webhookConfig payload = false ->
  order_size_rejected webhookConfig payload = false ->
  stop_loss_rejected webhookConfig payload = false ->
  Validation.valid (validateWebhookPayload payload) = false
  /\ Outcome.handed (POST now (Some payload) db) = [(payload, WebhookConfig.userId webhookConfig)].
Proof.
  intros Hq Hneg Ha Hs Hk H2 H3 H4 H5 H6 H7 H8 H9. split.
  - unfold validateWebhookPayload. rewrite Ha, Hs, Hq. cbn [negb].
    destruct (includes_value _ (get payload "action")); [|reflexivity]. cbn [negb].
    assert (num_le (Num quantity) (Num 0) = true) as ->; [|reflexivity].
    apply Qle_bool_iff. lra.
  - eapply POST_hands_over; try eassumption.
    unfold missing_required_fields. rewrite Ha, Hs, Hk, Hq. cbn [negb orb truthy num_truthy].
    destruct (Qeq_bool quantity 0) eqn:E; [|reflexivity].
    apply Qeq_bool_iff in E. lra.
Qed.

(** Claim C3, on the code.  A timestamp that is missing, or that converts to
    [NaN], is not rejected by the freshness stage, the comparison
    [Math.abs(NaN) > 300000] being false: when the other stages pass, the
    request is handed to the executor. *)
Theorem timestamp_not_a_number_is_accepted now payload db webhookConfig rows :
  to_number (get payload "timestamp") = NaN ->
  missing_required_fields payload = false ->
  verifyWebhookSignature db payload = true ->
  getUserFromApiKey db (to_string (get payload "apiKey")) = Some webhookConfig ->
  WebhookConfig.enabled webhookConfig = true ->
  checkRateLimit (WebhookConfig.userId webhookConfig) (to_string (get payload "apiKey"))
                 DEFAULT_RATE_LIMITS now (rate_limits db) = (true, rows) ->
  symbol_rejected webhookConfig payload = false ->
  order_size_rejected webhookConfig payload = false ->
  stop_loss_rejected webhookConfig payload = false ->
  timestamp_rejected now payload = false
  /\ Outcome.handed (POST now (Some payload) db) = [(payload, WebhookConfig.userId webhookConfig)].
Proof.
  intros Hts H1 H3 H4 H5 H6 H7 H8 H9.
  assert (timestamp_rejected now payload = false) as H2
    by (unfold timestamp_rejected; now rewrite Hts).
  split; [exact H2|]. eapply POST_hands_over; eassumption.
Qed.

(** What the freshness stage does reject: a request with the required
    fields whose timestamp is a whole number of seconds more than five
    minutes from the current time, in the past or in the future, is
    answered 401 before the signature is looked at; nothing is written and
    nothing is handed to the executor.  The current time and the timestamp
    in milliseconds are integers of at most 2^53 in size, on which the
    doubles of the handler are exact. *)
Theorem stale_timestamp_is_rejected now payload db (seconds : Z) :
  missing_required_fields payload = false ->
  get payload "timestamp" = Number (num_of_Z seconds) ->
  Z.abs now <= 2 ^ 53 ->
  Z.abs (seconds * 1000) <= 2 ^ 53 ->
  5 * 60 * 1000 < Z.abs (now - seconds * 1000) ->
  POST now (Some payload) db = respond 401 "Request timestamp is too old or invalid" db [].
Proof.
  intros H1 Hts _ _ Hgap. unfold POST. rewrite H1.
  assert (timestamp_rejected now payload = true) as ->; [|reflexivity].
  unfold timestamp_rejected. rewrite Hts.
  cbn [to_number num_mul num_of_Z num_sub num_abs num_gt].
  destruct (Qle_bool _ _) eqn:E; [|reflexivity].
  apply Qle_bool_iff in E. apply Qabs_Qle_condition in E as [E1 E2].
  unfold Qle, Qminus, Qplus, Qmult, Qopp, inject_Z in E1, E2. simpl in E1, E2. lia.
Qed.

End Handler.

Lemma stale_timestamp_is_rejected_witness :
  @POST example_platform example_now (Some late_alert) (example_db [])
  = respond 401 "Request timestamp is too old or invalid" (example_db []) [].
Proof.
  apply (@stale_timestamp_is_rejected example_platform example_now late_alert
           (example_db []) 1699999600).
  - reflexivity.
  - reflexivity.
  - vm_compute. discriminate.
  - vm_compute. discriminate.
  - vm_compute. reflexivity.
Defined.

Lemma POST_executes_beyond_the_daily_limit_witness :
  let db := example_db [example_log example_today; example_log example_today;
                        example_log example_today] in
  let payload := @signed example_platform "whs_1" (example_alert (5 # 100)) in
  num_gt (num_add (DailyLimit.currentUsage
                     (@checkDailyLimit example_platform db example_now "webhook-1"))
                  (@orderValue example_platform payload))
         (Num 10000) = true
  /\ Outcome.handed (@POST example_platform example_now (Some payload) db)
     = [(payload, "user_1"%string)].
Proof.
  split; [reflexivity|].
  eapply (@POST_executes_beyond_the_daily_limit example_platform example_now _ _
            (toWebhookConfig example_webhook)); reflexivity.
Defined.

Lemma POST_executes_negative_quantity_witness :
  let payload := @signed example_platform "whs_1" (example_alert (-1)) in
  Validation.valid (validateWebhookPayload payload) = false
  /\ Outcome.handed (@POST example_platform example_now (Some payload) (example_db []))
     = [(payload, "user_1"%string)].
Proof.
  eapply (@POST_executes_negative_quantity example_platform example_now _ _
            (toWebhookConfig example_webhook) _ (-1)%Q); reflexivity.
Defined.

Lemma timestamp_not_a_number_is_accepted_witness :
  let payload := @signed example_platform "whs_1" undated_alert in
  @timestamp_rejected example_platform example_now payload = false
  /\ Outcome.handed (@POST example_platform example_now (Some payload) (example_db []))
     = [(payload, "user_1"%string)].
Proof.
  eapply (@timestamp_not_a_number_is_accepted example_platform example_now _ _
            (toWebhookConfig example_webhook)); reflexivity.
Defined.

Section SizeCheck.
Context {platform : Platform}.

(** Claim C2, on the code.  The handler computes the notional as
    [payload.quantity * (payload.price || 0)]: for an order with no price
    it is zero, whatever the quantity, and zero is what the size check
    compares with [maxOrderSize].  An order with no price whose quantity
    is above [maxOrderSize] is not rejected as too large and, when the
    other stages pass, is handed to the executor. *)
Theorem POST_executes_priceless_order_above_the_limit
    now payload db webhookConfig rows quantity limit :
  truthy (get payload "price") = false ->
  get payload "quantity" = Number (Num quantity) ->
  WebhookConfig.maxOrderSize webhookConfig = Num limit ->
  (0 <= limit)%Q -> (limit < quantity)%Q ->
  missing_required_fields payload = false ->
  timestamp_rejected now payload = false ->
  verifyWebhookSignature db payload = true ->
  getUserFromApiKey db (to_string (get payload "apiKey")) = Some webhookConfig ->
  WebhookConfig.enabled webhookConfig = true ->
  checkRateLimit (WebhookConfig.userId webhookConfig) (to_string (get payload "apiKey"))
                 DEFAULT_RATE_LIMITS now (rate_limits db) = (true, rows) ->
  symbol_rejected webhookConfig payload = false ->
  stop_loss_rejected webhookConfig payload = false ->
  orderValue payload = Num (quantity * 0)
  /\ order_size_rejected webhookConfig payload = false
  /\ Outcome.handed (POST now (Some payload) db) = [(payload, WebhookConfig.userId webhookConfig)].
Proof.
  intros Hp Hq Hm Hl _ H1 H2 H3 H4 H5 H6 H7 H9.
  assert (orderValue payload = Num (quantity * 0)) as E
    by (unfold orderValue, or_else; now rewrite Hp, Hq).
  assert (order_size_rejected webhookConfig payload = false) as H8.
  { unfold order_size_rejected. rewrite E, Hm. cbn [num_gt].
    assert (Qle_bool (quantity * 0) limit = true) as -> by (apply Qle_bool_iff; lra).
    apply andb_false_r. }
  split; [exact E|]. split; [exact H8|].
  eapply POST_hands_over; eassumption.
Qed.

End SizeCheck.

Lemma POST_executes_priceless_order_above_the_limit_witness :
  let payload := @signed example_platform "whs_1" priceless_alert in
  @orderValue example_platform payload = Num (6000 * 0)
  /\ @order_size_rejected example_platform (toWebhookConfig example_webhook) payload = false
  /\ Outcome.handed (@POST example_platform example_now (Some payload) (example_db []))
     = [(payload, "user_1"%string)].
Proof.
  eapply (@POST_executes_priceless_order_above_the_limit example_platform example_now _ _
            (toWebhookConfig example_webhook) _ 6000 5000);
    try reflexivity; vm_compute; congruence.
Defined.

Section Audit.
Context {platform : Platform}.





End Audit.


(** * Credential lookup *)

Lemma string_length_append s1 s2 :
  String.length (s1 ++ s2) = (String.length s1 + String.length s2)%nat.
Proof. induction s1 as [|c s1 IH]; simpl; [reflexivity|now rewrite IH]. Qed.

Lemma single_map {A B : Type} (f : A -> B) l :
  single (map f l) = option_map f (single l).
Proof. destruct l as [|x [|y l]]; reflexivity. Qed.

Lemma filter_unique_key (apiKey : string) rows data :
  NoDup (map WebhookDB.api_key rows) -> In data rows -> WebhookDB.api_key data = apiKey ->
  filter (fun r => String.eqb (WebhookDB.api_key r) apiKey) rows = [data].
Proof.
  induction rows as [|r rows IH]; intros Hnd Hin Hk; [destruct Hin|].
  cbn [map] in Hnd. inversion Hnd as [|? ? Hnotin Hnd']; subst. cbn [filter].
  destruct Hin as [->|Hin].
  - rewrite String.eqb_refl. f_equal.
    clear IH Hnd Hnd'. induction rows as [|r rows IH]; [reflexivity|].
    cbn [filter map In] in *.
    destruct (String.eqb_spec (WebhookDB.api_key r) (WebhookDB.api_key data)); [tauto|].
    apply IH. tauto.
  - destruct (String.eqb_spec (WebhookDB.api_key r) (WebhookDB.api_key data)) as [E|_].
    + exfalso. apply Hnotin. rewrite E. now apply in_map.
    + now apply IH.
Qed.

(** Claim C10, as the code has it.  [getWebhookByApiKey] finds the
    credential by equality on the plaintext column [api_key]: what it
    returns carries the key asked for and comes from a row of the table;
    where [api_key] is unique it returns the row that holds the key; and
    which row it finds does not depend on the hashes stored. *)
Theorem getWebhookByApiKey_matches_the_plaintext_key (db : Database) (apiKey : string) :
  (forall webhookConfig,
     getWebhookByApiKey db apiKey = Some webhookConfig ->
     WebhookConfig.apiKey webhookConfig = apiKey
     /\ exists data, In data (webhooks db) /\ webhookConfig = toWebhookConfig data)
  /\ (forall data,
        NoDup (map WebhookDB.api_key (webhooks db)) ->
        In data (webhooks db) -> WebhookDB.api_key data = apiKey ->
        getWebhookByApiKey db apiKey = Some (toWebhookConfig data))
  /\ (forall hash,
        option_map WebhookConfig.id (getWebhookByApiKey (rehashed hash db) apiKey)
        = option_map WebhookConfig.id (getWebhookByApiKey db apiKey)).
Proof.
  unfold getWebhookByApiKey. split; [|split].
  - intros cfg H.
    destruct (filter _ (webhooks db)) as [|data [|]] eqn:E; try discriminate.
    cbn [single] in H. injection H as <-.
    assert (In data (filter (fun r => String.eqb (WebhookDB.api_key r) apiKey) (webhooks db)))
      as Hin by (rewrite E; now left).
    apply filter_In in Hin as [Hin Hk]. apply String.eqb_eq in Hk.
    split; [exact Hk|]. now exists data.
  - intros data Hnd Hin Hk. now rewrite (filter_unique_key apiKey _ data Hnd Hin Hk).
  - intros hash. cbn [rehashed webhooks].
    rewrite filter_map_stable by reflexivity. rewrite single_map.
    destruct (single _); reflexivity.
Qed.

Lemma resolve_by_lookup_hash_one_row {platform : Platform} data logs limits publicId :
  resolve_by_lookup_hash
    {| webhooks := [data]; webhook_logs := logs; rate_limits := limits |} publicId
  = if String.eqb (WebhookDB.api_secret_hash data) (hashApiKey publicId)
    then Some (toWebhookConfig data) else None.
Proof.
  unfold resolve_by_lookup_hash. cbn [webhooks filter].
  destruct (String.eqb _ _); reflexivity.
Qed.

(** Claim C10, as the specification has it, fails on every platform: the
    row found for a key does not change with the hash stored beside it, so
    no hash function makes the lookup a lookup by hash. *)
Lemma getWebhookByApiKey_is_not_a_hash_lookup :
  ~ exists platform : Platform,
      forall db publicId,
        getWebhookByApiKey db publicId = @resolve_by_lookup_hash platform db publicId.
Proof.
  intros [platform H].
  pose proof (H (example_db []) "wh_1"%string) as H1.
  pose proof (H (rehashed (fun _ => "$2a$10$legacy"%string) (example_db [])) "wh_1"%string) as H2.
  unfold example_db, rehashed in H1, H2. cbn [webhooks map webhook_logs rate_limits] in H2.
  rewrite resolve_by_lookup_hash_one_row in H1, H2.
  cbn [set_api_secret_hash WebhookDB.api_secret_hash example_webhook] in H1, H2.
  destruct (String.eqb_spec "#wh_1" (hashApiKey "wh_1")) as [E1|]; [|discriminate].
  destruct (String.eqb_spec "$2a$10$legacy" (hashApiKey "wh_1")) as [E2|]; [|discriminate].
  rewrite <- E1 in E2. discriminate.
Qed.

(** * Signature verification *)

Section Signature.
Context {platform : Platform}.

Lemma verifyHmacSignature_string payload signature secret :
  verifyHmacSignature payload (Str signature) secret
  = if Nat.eqb (String.length signature)
               (String.length (hmac_sha256_hex secret (signed_message payload)))
    then Ret (String.eqb signature (hmac_sha256_hex secret (signed_message payload)))
    else Throw "Input buffers must have the same byte length".
Proof. reflexivity. Qed.

Lemma verifyHmacSignature_length_mismatch payload signature secret :
  String.length signature
  <> String.length (hmac_sha256_hex secret (signed_message payload)) ->
  verifyHmacSignature payload (Str signature) secret
  = Throw "Input buffers must have the same byte length".
Proof.
  intros Hne. rewrite verifyHmacSignature_string.
  destruct (Nat.eqb_spec (String.length signature)
              (String.length (hmac_sha256_hex secret (signed_message payload))));
    [contradiction|reflexivity].
Qed.

Lemma verifyHmacSignature_true payload signature secret :
  verifyHmacSignature payload signature secret = Ret true <->
  signature = Str (hmac_sha256_hex secret (signed_message payload)).
Proof.
  split.
  - destruct signature as [| |b|n|s]; try discriminate.
    rewrite verifyHmacSignature_string.
    destruct (Nat.eqb _ _); [|discriminate].
    intros H. injection H as H. apply String.eqb_eq in H. now subst.
  - intros ->. rewrite verifyHmacSignature_string.
    now rewrite Nat.eqb_refl, String.eqb_refl.
Qed.

(** Claim C7, as the code has it.  For a signature that is a string,
    [verifyHmacSignature] throws when its length differs from the length
    of the expected HMAC and returns whether the two are equal when the
    lengths agree; the signature stage [verifyWebhookSignature], which
    catches what it throws, answers [true] exactly when the key resolves,
    the secret decrypts and the signature is the expected HMAC, and
    [false] on a length mismatch.  For a signature that is absent, [null],
    a boolean or a number, [verifyHmacSignature] throws and the stage
    answers [false]. *)
Theorem verifyWebhookSignature_fails_closed (db : Database) (payload : object) :
  (forall signature,
     get payload "signature" = Str signature ->
     (forall secret,
        verifyHmacSignature payload (Str signature) secret
        = if Nat.eqb (String.length signature)
                     (String.length (hmac_sha256_hex secret (signed_message payload)))
          then Ret (String.eqb signature (hmac_sha256_hex secret (signed_message payload)))
          else Throw "Input buffers must have the same byte length")
     /\ (verifyWebhookSignature db payload = true <->
         exists webhookConfig encryptedSecret secret,
           getWebhookByApiKey db (to_string (get payload "apiKey")) = Some webhookConfig
           /\ WebhookConfig.encryptedSecret webhookConfig = Some encryptedSecret
           /\ decryptApiSecret encryptedSecret = Ret secret
           /\ signature = hmac_sha256_hex secret (signed_message payload))
     /\ ((forall secret,
            String.length signature
            <> String.length (hmac_sha256_hex secret (signed_message payload))) ->
         verifyWebhookSignature db payload = false))
  /\ (get payload "signature" = Undefined
      \/ get payload "signature" = Null
      \/ (exists b, get payload "signature" = Boolean b)
      \/ (exists n, get payload "signature" = Number n) ->
      (forall secret,
         exists e, verifyHmacSignature payload (get payload "signature") secret = Throw e)
      /\ verifyWebhookSignature db payload = false).
Proof.
  split.
  - intros signature Hs.
    assert (verifyWebhookSignature db payload = true <->
            exists webhookConfig encryptedSecret secret,
              getWebhookByApiKey db (to_string (get payload "apiKey")) = Some webhookConfig
              /\ WebhookConfig.encryptedSecret webhookConfig = Some encryptedSecret
              /\ decryptApiSecret encryptedSecret = Ret secret
              /\ signature = hmac_sha256_hex secret (signed_message payload)) as Hiff.
    { unfold verifyWebhookSignature. rewrite Hs. split.
      - destruct (getWebhookByApiKey db _) as [cfg|] eqn:E1; [|discriminate].
        destruct (WebhookConfig.encryptedSecret cfg) as [enc|] eqn:E2; [|discriminate].
        destruct (decryptApiSecret enc) as [secret|] eqn:E3; [|discriminate].
        rewrite verifyHmacSignature_string.
        destruct (Nat.eqb _ _); [|discriminate].
        intros E. apply String.eqb_eq in E.
        exists cfg, enc, secret. repeat split; assumption.
      - intros (cfg & enc & secret & -> & -> & -> & ->).
        rewrite verifyHmacSignature_string.
        now rewrite Nat.eqb_refl, String.eqb_refl. }
    split; [intros secret; apply verifyHmacSignature_string|].
    split; [exact Hiff|].
    intros Hlen. apply not_true_is_false. intros E.
    apply Hiff in E as (cfg & enc & secret & _ & _ & _ & E).
    apply (Hlen secret). now rewrite E.
  - intros Hs. split.
    + intros secret. unfold verifyHmacSignature.
      destruct Hs as [->|[->|[[b ->]|[n ->]]]]; eexists; reflexivity.
    + unfold verifyWebhookSignature.
      destruct (getWebhookByApiKey db _) as [cfg|]; [|reflexivity].
      destruct (WebhookConfig.encryptedSecret cfg) as [enc|]; [|reflexivity].
      destruct (decryptApiSecret enc) as [secret|]; [|reflexivity].
      unfold verifyHmacSignature.
      destruct Hs as [->|[->|[[b ->]|[n ->]]]]; reflexivity.
Qed.

(** The expected signature is accepted, and no other of its length is. *)
Theorem verifyHmacSignature_accepts_the_expected_signature
    (payload : object) (secret : string) :
  verifyHmacSignature payload (Str (hmac_sha256_hex secret (signed_message payload))) secret
  = Ret true
  /\ forall signature,
       String.length signature
       = String.length (hmac_sha256_hex secret (signed_message payload)) ->
       signature <> hmac_sha256_hex secret (signed_message payload) ->
       verifyHmacSignature payload (Str signature) secret = Ret false.
Proof.
  split.
  - now apply verifyHmacSignature_true.
  - intros signature Hlen Hne. rewrite verifyHmacSignature_string.
    apply Nat.eqb_eq in Hlen. rewrite Hlen.
    apply String.eqb_neq in Hne. now rewrite Hne.
Qed.

End Signature.

(** Claim C7, as the specification has it, fails on every platform: a
    signature one character longer than the expected one makes
    [verifyHmacSignature] throw. *)
Lemma verifyHmacSignature_throws_on_length_mismatch :
  ~ exists platform : Platform,
      forall payload signature secret,
        String.length signature
        <> String.length (hmac_sha256_hex secret (signed_message payload)) ->
        verifyHmacSignature payload (Str signature) secret = Ret false.
Proof.
  intros [platform H].
  specialize (H (example_alert 1)
                (hmac_sha256_hex "whs_1" (signed_message (example_alert 1)) ++ "0")%string
                "whs_1"%string).
  rewrite verifyHmacSignature_length_mismatch in H.
  - assert (String.length
              (hmac_sha256_hex "whs_1" (signed_message (example_alert 1)) ++ "0")
            <> String.length (hmac_sha256_hex "whs_1" (signed_message (example_alert 1))))
      as Hne by (rewrite string_length_append; simpl; lia).
    specialize (H Hne). discriminate H.
  - rewrite string_length_append. simpl. lia.
Qed.

(** ** The comparison of [webhookAuth.ts] *)

Lemma lor_lxor_fold l :
  forall acc, 0 <= acc -> Forall (fun ab => 0 <= fst ab /\ 0 <= snd ab) l ->
    (fold_left (fun acc ab => Z.lor acc (Z.lxor (fst ab) (snd ab))) l acc = 0
     <-> acc = 0 /\ Forall (fun ab => fst ab = snd ab) l).
Proof.
  induction l as [|[a b] l IH]; intros acc Hacc Hl; cbn [fold_left].
  - split; [intros ->; split; [reflexivity|constructor]|tauto].
  - inversion Hl as [|? ? [Ha Hb] Hl']; subst. cbn [fst snd] in *.
    rewrite IH; [|apply Z.lor_nonneg; split; [assumption|now apply Z.lxor_nonneg]|assumption].
    rewrite Z.lor_eq_0_iff, Z.lxor_eq_0_iff.
    split.
    + intros [[-> ->] Hf]. split; [reflexivity|]. now constructor.
    + intros [-> Hf]. inversion Hf; subst. cbn [fst snd] in *. now subst.
Qed.

Lemma combine_equal {A : Type} (la : list A) :
  forall lb, List.length la = List.length lb ->
    (Forall (fun ab => fst ab = snd ab) (combine la lb) <-> la = lb).
Proof.
  induction la as [|a la IH]; intros [|b lb] Hlen; try discriminate; cbn [combine].
  - split; [reflexivity|constructor].
  - injection Hlen as Hlen. split.
    + intros H. inversion H; subst. cbn [fst snd] in *. f_equal; [assumption|].
      now apply IH.
    + intros H. injection H as -> ->. constructor; [reflexivity|]. now apply IH.
Qed.

Lemma char_codes_length s : List.length (char_codes s) = String.length s.
Proof.
  unfold char_codes. rewrite length_map.
  induction s as [|c s IH]; simpl; [reflexivity|now rewrite IH].
Qed.

Lemma char_codes_injective a b : char_codes a = char_codes b -> a = b.
Proof.
  unfold char_codes. revert b.
  induction a as [|x a IH]; intros [|y b]; simpl; try discriminate; [reflexivity|].
  intros H. injection H as Hxy Hab.
  apply N2Z.inj in Hxy.
  rewrite <- (ascii_N_embedding x), <- (ascii_N_embedding y), Hxy.
  f_equal. now apply IH.
Qed.

Lemma char_codes_nonneg a b :
  Forall (fun ab => 0 <= fst ab /\ 0 <= snd ab) (combine (char_codes a) (char_codes b)).
Proof.
  apply Forall_forall. intros [x y] Hin.
  pose proof (in_combine_l _ _ _ _ Hin) as Hx.
  pose proof (in_combine_r _ _ _ _ Hin) as Hy.
  unfold char_codes in Hx, Hy.
  apply in_map_iff in Hx as (cx & <- & _). apply in_map_iff in Hy as (cy & <- & _).
  cbn [fst snd]. lia.
Qed.

(** The helper of [webhookAuth.ts] is string equality: [false] on a length
    mismatch, and otherwise the verdict of the loop over every position. *)
Lemma timingSafeEqual_eqb a b : timingSafeEqual a b = String.eqb a b.
Proof.
  unfold timingSafeEqual.
  destruct (Nat.eqb_spec (String.length a) (String.length b)) as [Hlen|Hlen]; cbn [negb].
  - destruct (String.eqb_spec a b) as [->|Hne].
    + apply Z.eqb_eq. apply lor_lxor_fold; [lia|apply char_codes_nonneg|].
      split; [reflexivity|]. now apply combine_equal.
    + apply Z.eqb_neq. intros H.
      apply lor_lxor_fold in H as [_ H]; [|lia|apply char_codes_nonneg].
      apply combine_equal in H; [|now rewrite !char_codes_length].
      now apply char_codes_injective in H.
  - symmetry. apply String.eqb_neq. intros ->. now apply Hlen.
Qed.

(** * The limiter over time *)

Lemma filter_length_le' {A} (P : A -> bool) l : (List.length (filter P l) <= List.length l)%nat.
Proof. induction l as [|x l IH]; simpl; [lia|]. destruct (P x); simpl; lia. Qed.

Lemma windows_same_type config w w' :
  In w (windows config) -> In w' (windows config) -> Window.type w = Window.type w' -> w = w'.
Proof.
  unfold windows. cbn [In]. intros H H' E.
  intuition (subst; cbn [Window.type] in E; try reflexivity; discriminate).
Qed.

Lemma windows_duration config w :
  In w (windows config) -> 0 <= Window.duration w <= 24 * 60 * 60 * 1000.
Proof.
  unfold windows. cbn [In]. intuition (subst; cbn [Window.duration]; lia).
Qed.

Lemma check_window_one_open u k now w rows :
  (List.length (filter (in_window u k (Window.type w) (now - Window.duration w)) rows) <= 1)%nat ->
  (List.length (filter (in_window u k (Window.type w) (now - Window.duration w))
                  (snd (check_window u k now w rows))) <= 1)%nat.
Proof.
  intros H. unfold check_window.
  destruct (filter _ rows) as [|r [|r' l]] eqn:Hf; cbn [single].
  - unfold insert_rate_limit. destruct (existsb _ _); simpl snd.
    + rewrite Hf. simpl. lia.
    + rewrite filter_app, Hf. cbn [app]. apply filter_length_le'.
  - destruct (_ <=? _); cbn [snd].
    + rewrite Hf. simpl. lia.
    + rewrite filter_map_stable.
      * rewrite Hf. simpl. lia.
      * intros x. destruct (in_window _ _ _ _ x) eqn:E; [|exact E].
        now rewrite in_window_set_request_count.
  - simpl in H. lia.
Qed.

Lemma check_windows_one_open u k now u' k' ty D ws :
  forall rows,
    (forall w, In w ws -> Window.type w = ty -> Window.duration w = D) ->
    (List.length (filter (in_window u' k' ty (now - D)) rows) <= 1)%nat ->
    (List.length (filter (in_window u' k' ty (now - D))
                    (snd (check_windows u k now ws rows))) <= 1)%nat.
Proof.
  induction ws as [|w ws IH]; intros rows Hd H; cbn [check_windows]; [exact H|].
  assert (List.length (filter (in_window u' k' ty (now - D))
                         (snd (check_window u k now w rows))) <= 1)%nat as H'.
  { destruct (String.eqb_spec u' u) as [->|Hu];
      [destruct (String.eqb_spec k' k) as [->|Hk];
       [destruct (String.eqb_spec (Window.type w) ty) as [Hty|Hty]|]|].
    - rewrite <- (Hd w (or_introl eq_refl) Hty) in *. rewrite <- Hty in *.
      now apply check_window_one_open.
    - rewrite check_window_keeps; [exact H|].
      intros r Hr. rewrite in_window_of_window in Hr. apply andb_prop in Hr as [Hr _].
      apply (of_window_other_type u k (Window.type w) ty); [exact Hty|exact Hr].
    - rewrite check_window_keeps; [exact H|].
      intros r Hr. rewrite in_window_of_window in Hr. apply andb_prop in Hr as [Hr _].
      apply (of_window_other_pair u k u k' (Window.type w) ty); [now right|exact Hr].
    - rewrite check_window_keeps; [exact H|].
      intros r Hr. rewrite in_window_of_window in Hr. apply andb_prop in Hr as [Hr _].
      apply (of_window_other_pair u k u' k' (Window.type w) ty); [now left|exact Hr]. }
  destruct (check_window u k now w rows) as [go rows'] eqn:E. cbn [snd] in H'.
  destruct go; [|exact H'].
  apply IH; [|exact H']. intros w0 Hw0. apply Hd. now right.
Qed.

(** The [.single()] the limiter relies on keeps holding.  When a pair has at
    most one open window of each kind at some time, it still has after any
    call of [checkRateLimit] at that time or later, made for this pair or
    for any other: a call opens a window only when it has found none, and
    otherwise counts on the one it found. *)
Theorem checkRateLimit_keeps_one_open_window
    (userId apiKey : string) (config : RateLimitConfig) (earlier now : Z)
    (rows : list RateLimitDB.t) (userId' apiKey' : string) :
  one_open_window userId' apiKey' config earlier rows ->
  earlier <= now ->
  one_open_window userId' apiKey' config now
    (snd (checkRateLimit userId apiKey config now rows)).
Proof.
  intros H Hle w Hw. unfold checkRateLimit.
  apply check_windows_one_open.
  - intros w0 Hw0 Hty. now rewrite (windows_same_type config w0 w Hw0 Hw Hty).
  - rewrite (filter_in_window_later userId' apiKey' (Window.type w)
               (earlier - Window.duration w) (now - Window.duration w)) by lia.
    etransitivity; [apply filter_length_le'|]. now apply H.
Qed.

Lemma checkRateLimit_keeps_one_open_window_witness :
  one_open_window "user_1" "wh_1" DEFAULT_RATE_LIMITS 60000
    (snd (checkRateLimit "user_2" "wh_1" DEFAULT_RATE_LIMITS 60000 rows_of_others)).
Proof.
  apply (checkRateLimit_keeps_one_open_window "user_2" "wh_1" DEFAULT_RATE_LIMITS 0 60000
           rows_of_others "user_1" "wh_1").
  - intros w Hw. unfold windows in Hw. cbn [In] in Hw.
    destruct Hw as [<-|[<-|[<-|[]]]]; vm_compute; lia.
  - lia.
Defined.

(** ** Rows the limiter does not look at *)

Lemma check_window_filter (K : RateLimitDB.t -> bool) u k now w rows :
  (forall r, of_window u k (Window.type w) r = true ->
             now - Window.duration w <= RateLimitDB.window_start r -> K r = true) ->
  0 <= Window.duration w ->
  (forall n r, K (set_request_count n r) = K r) ->
  check_window u k now w (filter K rows)
  = (fst (check_window u k now w rows), filter K (snd (check_window u k now w rows))).
Proof.
  intros HK HD Hset. unfold check_window.
  rewrite filter_filter_implied.
  2:{ intros r Hr. rewrite in_window_of_window in Hr. apply andb_prop in Hr as [H1 H2].
      apply Z.leb_le in H2. now apply HK. }
  destruct (single _) as [existing|].
  - destruct (_ <=? _); cbn [fst snd]; [reflexivity|].
    f_equal. symmetry. apply filter_map_stable.
    intros r. destruct (in_window _ _ _ _ r); [apply Hset|reflexivity].
  - unfold insert_rate_limit.
    rewrite existsb_filter_implied.
    2:{ intros r Hr. unfold same_window in Hr. cbn in Hr.
        apply andb_prop in Hr as [Hr Hs]. apply andb_prop in Hr as [Hr Ht].
        apply andb_prop in Hr as [Hu Hk]. apply Z.eqb_eq in Hs.
        apply HK; [|lia]. unfold of_window.
        rewrite (String.eqb_sym _ u), (String.eqb_sym _ k), (String.eqb_sym _ (Window.type w)).
        now rewrite Hu, Hk, Ht. }
    destruct (existsb _ _); simpl; [reflexivity|].
    f_equal. rewrite filter_app. f_equal. cbn [filter].
    rewrite HK; [reflexivity| |cbn; lia].
    unfold of_window. cbn. now rewrite !String.eqb_refl.
Qed.

Lemma check_windows_filter (K : RateLimitDB.t -> bool) u k now ws :
  forall rows,
    (forall w r, In w ws -> of_window u k (Window.type w) r = true ->
                 now - Window.duration w <= RateLimitDB.window_start r -> K r = true) ->
    (forall w, In w ws -> 0 <= Window.duration w) ->
    (forall n r, K (set_request_count n r) = K r) ->
    check_windows u k now ws (filter K rows)
    = (fst (check_windows u k now ws rows), filter K (snd (check_windows u k now ws rows))).
Proof.
  induction ws as [|w ws IH]; intros rows HK HD Hset; cbn [check_windows]; [reflexivity|].
  rewrite check_window_filter;
    [|intros r; apply HK; now left|apply HD; now left|exact Hset].
  destruct (check_window u k now w rows) as [go rows'] eqn:E. cbn [fst snd].
  destruct go; [|reflexivity].
  apply IH; [|intros w0 Hw0; apply HD; now right|exact Hset].
  intros w0 r Hw0. apply HK. now right.
Qed.

(** ** No window open *)

Lemma checkRateLimit_opens u k config now rows :
  (forall w, In w (windows config) ->
     filter (in_window u k (Window.type w) (now - Window.duration w)) rows = []) ->
  checkRateLimit u k config now rows = (true, rows ++ opened u k now).
Proof.
  intros H. unfold checkRateLimit, windows, opened in *.
  assert (Hm := H _ (or_introl eq_refl)).
  assert (Hh := H _ (or_intror (or_introl eq_refl))).
  assert (Hd := H _ (or_intror (or_intror (or_introl eq_refl)))).
  cbn [Window.type Window.duration] in Hm, Hh, Hd.
  cbn [check_windows].
  destruct (check_window_opens u k "minute" (60 * 1000) (maxRequestsPerMinute config)
              now rows ltac:(lia) Hm) as [-> _].
  destruct (check_window_opens u k "hour" (60 * 60 * 1000) (maxRequestsPerHour config)
              now (rows ++ [RateLimitDB.mk u k "minute" now 1]) ltac:(lia)) as [-> _].
  { rewrite filter_app, Hh. cbn [filter app]. unfold in_window. cbn.
    now rewrite !andb_false_r. }
  destruct (check_window_opens u k "day" (24 * 60 * 60 * 1000) (maxRequestsPerDay config)
              now ((rows ++ [RateLimitDB.mk u k "minute" now 1])
                   ++ [RateLimitDB.mk u k "hour" now 1]) ltac:(lia)) as [-> _].
  { rewrite !filter_app, Hd. cbn [filter app]. unfold in_window. cbn.
    now rewrite !andb_false_r. }
  now rewrite <- !app_assoc.
Qed.

(** Expired windows do not block.  When every row of the pair has
    expired for its kind, the call is allowed whatever the limits are
    (limits of zero included, which the code compares only with the count
    of a window it has found), and it opens the three windows at the
    current time with a count of one, after the rows that were there. *)
Theorem checkRateLimit_allows_when_no_window_is_open
    (userId apiKey : string) (config : RateLimitConfig) (now : Z)
    (rows : list RateLimitDB.t) :
  (forall r w, In r rows -> In w (windows config) ->
     RateLimitDB.user_id r = userId -> RateLimitDB.api_key r = apiKey ->
     RateLimitDB.window_type r = Window.type w ->
     RateLimitDB.window_start r < now - Window.duration w) ->
  checkRateLimit userId apiKey config now rows = (true, rows ++ opened userId apiKey now).
Proof.
  intros H. apply checkRateLimit_opens. intros w Hw.
  induction rows as [|r rows IH]; cbn [filter]; [reflexivity|].
  rewrite IH by (intros r0 w0 Hr0; apply H; now right).
  unfold in_window.
  destruct (String.eqb_spec (RateLimitDB.user_id r) userId) as [Hu|]; [|reflexivity].
  destruct (String.eqb_spec (RateLimitDB.api_key r) apiKey) as [Hk|]; [|reflexivity].
  destruct (String.eqb_spec (RateLimitDB.window_type r) (Window.type w)) as [Ht|]; [|reflexivity].
  pose proof (H r w (or_introl eq_refl) Hw Hu Hk Ht).
  destruct (Z.leb_spec (now - Window.duration w) (RateLimitDB.window_start r)); [lia|].
  reflexivity.
Qed.

Lemma checkRateLimit_allows_when_no_window_is_open_witness :
  checkRateLimit "user_1" "wh_1" no_requests 0 rows_of_others
  = (true, rows_of_others ++ opened "user_1" "wh_1" 0).
Proof.
  apply (checkRateLimit_allows_when_no_window_is_open "user_1" "wh_1").
  intros r w Hr Hw. unfold windows in Hw. cbn [In] in Hw.
  unfold rows_of_others in Hr. cbn [In] in Hr.
  destruct Hw as [<-|[<-|[<-|[]]]];
    destruct Hr as [<-|[<-|[<-|[<-|[<-|[]]]]]]; cbn; intros; try discriminate; lia.
Defined.

(** ** After a reset *)

Lemma resetRateLimit_checkRateLimit_own u k config now rows :
  checkRateLimit u k config now (resetRateLimit u k rows)
  = (true, resetRateLimit u k rows ++ opened u k now).
Proof.
  apply checkRateLimit_opens. intros w Hw.
  unfold resetRateLimit. induction rows as [|r rows IH]; cbn [filter]; [reflexivity|].
  destruct (String.eqb_spec (RateLimitDB.user_id r) u) as [Hu|Hu];
    destruct (String.eqb_spec (RateLimitDB.api_key r) k) as [Hk|Hk]; cbn [andb negb];
    [exact IH| | |]; cbn [filter]; rewrite IH; unfold in_window;
    try (apply String.eqb_neq in Hu; rewrite Hu); try (apply String.eqb_neq in Hk; rewrite Hk);
    rewrite ?andb_false_r; reflexivity.
Qed.

(** After [resetRateLimit] the next call of the pair is allowed and opens
    its three windows anew; for every other pair the reset is invisible:
    its calls get the answer they would have got, and leave the table they
    would have left, less the rows of the pair that was reset. *)
Theorem resetRateLimit_reopens_the_pair_only
    (userId apiKey : string) (config : RateLimitConfig) (now : Z)
    (rows : list RateLimitDB.t) :
  checkRateLimit userId apiKey config now (resetRateLimit userId apiKey rows)
  = (true, resetRateLimit userId apiKey rows ++ opened userId apiKey now)
  /\ forall userId' apiKey',
       userId' <> userId \/ apiKey' <> apiKey ->
       checkRateLimit userId' apiKey' config now (resetRateLimit userId apiKey rows)
       = (fst (checkRateLimit userId' apiKey' config now rows),
          resetRateLimit userId apiKey (snd (checkRateLimit userId' apiKey' config now rows))).
Proof.
  split; [apply resetRateLimit_checkRateLimit_own|].
  intros u' k' Hne. unfold checkRateLimit, resetRateLimit.
  apply check_windows_filter.
  - intros w r _ Hr _. unfold of_window in Hr.
    apply andb_prop in Hr as [Hr _]. apply andb_prop in Hr as [Hu Hk].
    apply String.eqb_eq in Hu, Hk.
    destruct (String.eqb_spec (RateLimitDB.user_id r) userId);
      destruct (String.eqb_spec (RateLimitDB.api_key r) apiKey); try reflexivity.
    destruct Hne; congruence.
  - intros w Hw. apply (windows_duration config w Hw).
  - reflexivity.
Qed.

(** ** After a sweep *)

(** The sweep deletes only rows no later call looks at: a call at the time
    of the sweep or later gets the same answer on the swept table, and
    sweeping commutes with the call. *)
Theorem cleanupExpiredRateLimits_is_invisible_to_checkRateLimit
    (userId apiKey : string) (config : RateLimitConfig) (swept now : Z)
    (rows : list RateLimitDB.t) :
  swept <= now ->
  checkRateLimit userId apiKey config now (cleanupExpiredRateLimits swept rows)
  = (fst (checkRateLimit userId apiKey config now rows),
     cleanupExpiredRateLimits swept (snd (checkRateLimit userId apiKey config now rows))).
Proof.
  intros Hle. unfold checkRateLimit, cleanupExpiredRateLimits.
  apply check_windows_filter.
  - intros w r Hw _ Hr. pose proof (windows_duration config w Hw).
    destruct (Z.ltb_spec (RateLimitDB.window_start r) (swept - 24 * 60 * 60 * 1000));
      [lia|reflexivity].
  - intros w Hw. apply (windows_duration config w Hw).
  - reflexivity.
Qed.

Lemma cleanupExpiredRateLimits_is_invisible_to_checkRateLimit_witness :
  checkRateLimit "user_1" "wh_1" DEFAULT_RATE_LIMITS 100000
    (cleanupExpiredRateLimits 100000 rows_of_others)
  = (fst (checkRateLimit "user_1" "wh_1" DEFAULT_RATE_LIMITS 100000 rows_of_others),
     cleanupExpiredRateLimits 100000
       (snd (checkRateLimit "user_1" "wh_1" DEFAULT_RATE_LIMITS 100000 rows_of_others))).
Proof.
  apply (cleanupExpiredRateLimits_is_invisible_to_checkRateLimit
           "user_1" "wh_1" DEFAULT_RATE_LIMITS 100000 100000 rows_of_others).
  lia.
Defined.

(** ** What the status reports *)

Lemma latest_In rows r : latest rows = Some r -> In r rows.
Proof.
  revert r. induction rows as [|x rows IH]; intros r; cbn [latest]; [discriminate|].
  destruct (latest rows) as [r'|].
  - destruct (_ <? _); intros E; injection E as <-; [right; now apply IH|now left].
  - intros E. injection E as <-. now left.
Qed.

Lemma check_window_getRemaining u k now w rows :
  (List.length (filter (in_window u k (Window.type w) (now - Window.duration w)) rows) <= 1)%nat ->
  0 < Window.limit w ->
  fst (check_window u k now w rows)
  = (0 <? fst (getRemaining u k now rows (Window.type w) (Window.duration w) (Window.limit w))).
Proof.
  intros H HL. unfold check_window, getRemaining.
  destruct (filter _ rows) as [|r [|r' l]] eqn:Hf; cbn [single latest].
  - cbn [fst]. unfold insert_rate_limit. destruct (existsb _ _); simpl.
    + symmetry. now apply Z.ltb_lt.
    + symmetry. now apply Z.ltb_lt.
  - cbn [fst].
    destruct (Z.leb_spec (Window.limit w) (RateLimitDB.request_count r)); cbn [fst];
      symmetry; [apply Z.ltb_ge|apply Z.ltb_lt]; lia.
  - simpl in H. lia.
Qed.

Lemma filter_in_window_keeps u k now w ty thr rows :
  Window.type w <> ty ->
  filter (in_window u k ty thr) (snd (check_window u k now w rows))
  = filter (in_window u k ty thr) rows.
Proof.
  intros Hne. apply check_window_keeps.
  intros r Hr. rewrite in_window_of_window in Hr. apply andb_prop in Hr as [Hr _].
  apply (of_window_other_type u k (Window.type w) ty); assumption.
Qed.

Lemma getRemaining_keeps u k now w ty D L rows :
  Window.type w <> ty ->
  getRemaining u k now (snd (check_window u k now w rows)) ty D L
  = getRemaining u k now rows ty D L.
Proof.
  intros Hne. unfold getRemaining. now rewrite filter_in_window_keeps.
Qed.

Lemma getRemaining_reset u k now rows ty D L :
  snd (getRemaining u k now rows ty D L) = 0
  \/ now <= snd (getRemaining u k now rows ty D L).
Proof.
  unfold getRemaining.
  destruct (latest _) as [data|] eqn:E; cbn [snd]; [right|now left].
  apply latest_In in E. apply filter_In in E as [_ E].
  rewrite in_window_of_window in E. apply andb_prop in E as [_ E].
  apply Z.leb_le in E. lia.
Qed.

(** The status tells what the limiter will do.  With at most one open
    window of each kind and positive limits, [checkRateLimit] allows the
    call exactly when [getRateLimitStatus] reports something remaining in
    each of the three windows; and a reset time it reports is [0], for a
    window that is not open, or not before the current time. *)
Theorem getRateLimitStatus_foretells_checkRateLimit
    (userId apiKey : string) (config : RateLimitConfig) (now : Z)
    (rows : list RateLimitDB.t) :
  one_open_window userId apiKey config now rows ->
  0 < maxRequestsPerMinute config ->
  0 < maxRequestsPerHour config ->
  0 < maxRequestsPerDay config ->
  let status := getRateLimitStatus userId apiKey config now rows in
  (fst (checkRateLimit userId apiKey config now rows) = true
   <-> 0 < RateLimitStatus.minuteRemaining status
       /\ 0 < RateLimitStatus.hourRemaining status
       /\ 0 < RateLimitStatus.dayRemaining status)
  /\ (RateLimitStatus.minuteReset status = 0 \/ now <= RateLimitStatus.minuteReset status)
  /\ (RateLimitStatus.hourReset status = 0 \/ now <= RateLimitStatus.hourReset status)
  /\ (RateLimitStatus.dayReset status = 0 \/ now <= RateLimitStatus.dayReset status).
Proof.
  intros H Lm Lh Ld status. subst status. split.
  2:{ unfold getRateLimitStatus.
      pose proof (getRemaining_reset userId apiKey now rows "minute" (60 * 1000)
                    (maxRequestsPerMinute config)) as Rm.
      pose proof (getRemaining_reset userId apiKey now rows "hour" (60 * 60 * 1000)
                    (maxRequestsPerHour config)) as Rh.
      pose proof (getRemaining_reset userId apiKey now rows "day" (24 * 60 * 60 * 1000)
                    (maxRequestsPerDay config)) as Rd.
      destruct (getRemaining userId apiKey now rows "minute" _ _) as [rm tm].
      destruct (getRemaining userId apiKey now rows "hour" _ _) as [rh th].
      destruct (getRemaining userId apiKey now rows "day" _ _) as [rd td].
      cbn [snd RateLimitStatus.minuteReset RateLimitStatus.hourReset
           RateLimitStatus.dayReset] in *. tauto. }
  pose (wm := Window.mk "minute" (60 * 1000) (maxRequestsPerMinute config)).
  pose (wh := Window.mk "hour" (60 * 60 * 1000) (maxRequestsPerHour config)).
  pose (wd := Window.mk "day" (24 * 60 * 60 * 1000) (maxRequestsPerDay config)).
  assert (Hm := H wm (or_introl eq_refl)).
  assert (Hh := H wh (or_intror (or_introl eq_refl))).
  assert (Hd := H wd (or_intror (or_intror (or_introl eq_refl)))).
  cbn [Window.type Window.duration wm wh wd] in Hm, Hh, Hd.
  pose proof (check_window_getRemaining userId apiKey now wm rows Hm Lm) as Em.
  unfold getRateLimitStatus, checkRateLimit, windows.
  fold wm wh wd. cbn [check_windows].
  assert (Window.type wm <> "hour"%string) as Nmh by discriminate.
  assert (Window.type wm <> "day"%string) as Nmd by discriminate.
  assert (Window.type wh <> "day"%string) as Nhd by discriminate.
  rewrite <- (getRemaining_keeps userId apiKey now wm "hour" _ _ rows Nmh).
  rewrite <- (getRemaining_keeps userId apiKey now wm "day" _ _ rows Nmd).
  rewrite <- (filter_in_window_keeps userId apiKey now wm "hour" _ rows Nmh) in Hh.
  rewrite <- (filter_in_window_keeps userId apiKey now wm "day" _ rows Nmd) in Hd.
  destruct (check_window userId apiKey now wm rows) as [gm rows1]. cbn [fst snd] in *.
  pose proof (check_window_getRemaining userId apiKey now wh rows1 Hh Lh) as Eh.
  rewrite <- (getRemaining_keeps userId apiKey now wh "day" _ _ rows1 Nhd).
  rewrite <- (filter_in_window_keeps userId apiKey now wh "day" _ rows1 Nhd) in Hd.
  destruct (check_window userId apiKey now wh rows1) as [gh rows2]. cbn [fst snd] in *.
  pose proof (check_window_getRemaining userId apiKey now wd rows2 Hd Ld) as Ed.
  destruct (check_window userId apiKey now wd rows2) as [gd rows3]. cbn [fst snd] in *.
  cbn [Window.type Window.duration Window.limit wm wh wd] in Em, Eh, Ed.
  destruct (getRemaining userId apiKey now rows "minute" _ _) as [rm tm].
  destruct (getRemaining userId apiKey now rows1 "hour" _ _) as [rh th].
  destruct (getRemaining userId apiKey now rows2 "day" _ _) as [rd td].
  cbn [fst RateLimitStatus.minuteRemaining RateLimitStatus.hourRemaining
       RateLimitStatus.dayRemaining] in *.
  subst gm gh gd.
  destruct (Z.ltb_spec 0 rm); [|split; [discriminate|lia]].
  destruct (Z.ltb_spec 0 rh); [|split; [discriminate|lia]].
  destruct (Z.ltb_spec 0 rd); [|split; [discriminate|lia]].
  cbn [fst]. split; [intros _; lia|reflexivity].
Qed.

Lemma getRateLimitStatus_foretells_checkRateLimit_witness :
  let status := getRateLimitStatus "user_1" "wh_1" DEFAULT_RATE_LIMITS 3565000
                  rows_after_busy_hour in
  (fst (checkRateLimit "user_1" "wh_1" DEFAULT_RATE_LIMITS 3565000 rows_after_busy_hour) = true
   <-> 0 < RateLimitStatus.minuteRemaining status
       /\ 0 < RateLimitStatus.hourRemaining status
       /\ 0 < RateLimitStatus.dayRemaining status)
  /\ (RateLimitStatus.minuteReset status = 0 \/ 3565000 <= RateLimitStatus.minuteReset status)
  /\ (RateLimitStatus.hourReset status = 0 \/ 3565000 <= RateLimitStatus.hourReset status)
  /\ (RateLimitStatus.dayReset status = 0 \/ 3565000 <= RateLimitStatus.dayReset status).
Proof.
  apply (getRateLimitStatus_foretells_checkRateLimit "user_1" "wh_1" DEFAULT_RATE_LIMITS
           3565000 rows_after_busy_hour).
  - intros w Hw. unfold windows in Hw. cbn [In] in Hw.
    destruct Hw as [<-|[<-|[<-|[]]]]; vm_compute; lia.
  - reflexivity.
  - reflexivity.
  - reflexivity.
Defined.

(** ** Counts and limits *)

Lemma check_window_counts_within config u k now w rows :
  In w (windows config) -> 0 < Window.limit w ->
  counts_within_limits config rows ->
  counts_within_limits config (snd (check_window u k now w rows)).
Proof.
  intros Hw HL H r w' Hr Hw' Hty. unfold check_window in Hr.
  destruct (filter _ rows) as [|existing [|r' l]] eqn:Hf; cbn [single] in Hr.
  - unfold insert_rate_limit in Hr. destruct (existsb _ _); simpl snd in Hr.
    + now apply (H r w').
    + apply in_app_or in Hr as [Hr|[<-|[]]]; [now apply (H r w')|].
      cbn in Hty |- *. rewrite <- (windows_same_type config w w' Hw Hw' Hty). lia.
  - destruct (Z.leb_spec (Window.limit w) (RateLimitDB.request_count existing)) as [|Hlt];
      cbn [snd] in Hr; [now apply (H r w')|].
    apply in_map_iff in Hr as (r0 & <- & Hr0).
    destruct (in_window u k (Window.type w) (now - Window.duration w) r0) eqn:E.
    + assert (In r0 (filter (in_window u k (Window.type w) (now - Window.duration w)) rows))
        as Hin by (apply filter_In; now split).
      rewrite Hf in Hin. destruct Hin as [->|[]].
      cbn in Hty |- *.
      apply andb_prop in E as [E _]. apply andb_prop in E as [_ E].
      apply String.eqb_eq in E.
      rewrite <- (windows_same_type config w w' Hw Hw'); [lia|congruence].
    + now apply (H r0 w').
  - unfold insert_rate_limit in Hr. destruct (existsb _ _); simpl snd in Hr.
    + now apply (H r w').
    + apply in_app_or in Hr as [Hr|[<-|[]]]; [now apply (H r w')|].
      cbn in Hty |- *. rewrite <- (windows_same_type config w w' Hw Hw' Hty). lia.
Qed.

Lemma check_windows_counts_within config u k now ws :
  forall rows,
    (forall w, In w ws -> In w (windows config) /\ 0 < Window.limit w) ->
    counts_within_limits config rows ->
    counts_within_limits config (snd (check_windows u k now ws rows)).
Proof.
  induction ws as [|w ws IH]; intros rows Hws H; cbn [check_windows]; [exact H|].
  destruct (Hws w (or_introl eq_refl)) as [Hw HL].
  pose proof (check_window_counts_within config u k now w rows Hw HL H) as H'.
  destruct (check_window u k now w rows) as [go rows']. cbn [snd] in H'.
  destruct go; [|exact H'].
  apply IH; [|exact H']. intros w0 Hw0. apply Hws. now right.
Qed.

(** With positive limits the limiter never writes a count above the limit
    of the window: a table whose counts are within the limits stays so
    under any call. *)
Theorem checkRateLimit_never_counts_beyond_the_limit
    (userId apiKey : string) (config : RateLimitConfig) (now : Z)
    (rows : list RateLimitDB.t) :
  0 < maxRequestsPerMinute config ->
  0 < maxRequestsPerHour config ->
  0 < maxRequestsPerDay config ->
  counts_within_limits config rows ->
  counts_within_limits config (snd (checkRateLimit userId apiKey config now rows)).
Proof.
  intros Lm Lh Ld H. unfold checkRateLimit.
  apply check_windows_counts_within; [|exact H].
  intros w Hw. split; [exact Hw|].
  unfold windows in Hw. cbn [In] in Hw.
  destruct Hw as [<-|[<-|[<-|[]]]]; assumption.
Qed.

Lemma checkRateLimit_never_counts_beyond_the_limit_witness :
  counts_within_limits DEFAULT_RATE_LIMITS
    (snd (checkRateLimit "user_1" "wh_1" DEFAULT_RATE_LIMITS 0 rows_of_others)).
Proof.
  apply (checkRateLimit_never_counts_beyond_the_limit "user_1" "wh_1" DEFAULT_RATE_LIMITS 0
           rows_of_others).
  - reflexivity.
  - reflexivity.
  - reflexivity.
  - intros r w Hr Hw. unfold windows in Hw. cbn [In] in Hw.
    unfold rows_of_others in Hr. cbn [In] in Hr.
    destruct Hw as [<-|[<-|[<-|[]]]];
      destruct Hr as [<-|[<-|[<-|[<-|[<-|[]]]]]]; cbn; intros; try discriminate; lia.
Defined.

(** * The handler, stage by stage *)

Section Gates.
Context {platform : Platform}.

(** The stages in the order of the handler. *)
Lemma POST_stages now payload db :
  Outcome.handed (POST now (Some payload) db) <> [] ->
  exists webhookConfig,
    missing_required_fields payload = false
    /\ timestamp_rejected now payload = false
    /\ verifyWebhookSignature db payload = true
    /\ getUserFromApiKey db (to_string (get payload "apiKey")) = Some webhookConfig
    /\ WebhookConfig.enabled webhookConfig = true
    /\ fst (checkRateLimit (WebhookConfig.userId webhookConfig)
                           (to_string (get payload "apiKey"))
                           DEFAULT_RATE_LIMITS now (rate_limits db)) = true
    /\ symbol_rejected webhookConfig payload = false
    /\ order_size_rejected webhookConfig payload = false
    /\ stop_loss_rejected webhookConfig payload = false.
Proof.
  unfold POST.
  destruct (missing_required_fields payload) eqn:E1; [now rewrite handed_respond|].
  destruct (timestamp_rejected now payload) eqn:E2; [now rewrite handed_respond|].
  destruct (verifyWebhookSignature db payload) eqn:E3; cbn [negb];
    [|now rewrite handed_respond].
  destruct (getUserFromApiKey db _) as [cfg|] eqn:E4; [|now rewrite handed_respond].
  destruct (WebhookConfig.enabled cfg) eqn:E5; cbn [negb]; [|now rewrite handed_respond].
  destruct (checkRateLimit _ _ _ _ _) as [ok rows] eqn:E6.
  destruct ok; cbn [negb]; [|now rewrite handed_respond].
  destruct (symbol_rejected cfg payload) eqn:E7; [now rewrite handed_respond|].
  destruct (order_size_rejected cfg payload) eqn:E8; [now rewrite handed_respond|].
  destruct (stop_loss_rejected cfg payload) eqn:E9; [now rewrite handed_respond|].
  intros _. exists cfg. rewrite E6. repeat split; assumption.
Qed.

(** No order reaches the executor unless every stage of the handler has
    passed, and every request that passes them all does: the required
    fields, the timestamp, the signature, the lookup of the key, the
    enabled flag, the rate limit, the symbol, the order size and the stop
    loss.  The handler hands over at most one order, the payload as
    received, for the owner of the key; a body that does not parse hands
    over nothing. *)
Theorem POST_hands_over_exactly_when_every_stage_passes
    (now : Z) (payload : object) (db : Database) :
  (Outcome.handed (POST now (Some payload) db) <> [] <->
   exists webhookConfig,
     missing_required_fields payload = false
     /\ timestamp_rejected now payload = false
     /\ verifyWebhookSignature db payload = true
     /\ getUserFromApiKey db (to_string (get payload "apiKey")) = Some webhookConfig
     /\ WebhookConfig.enabled webhookConfig = true
     /\ fst (checkRateLimit (WebhookConfig.userId webhookConfig)
                            (to_string (get payload "apiKey"))
                            DEFAULT_RATE_LIMITS now (rate_limits db)) = true
     /\ symbol_rejected webhookConfig payload = false
     /\ order_size_rejected webhookConfig payload = false
     /\ stop_loss_rejected webhookConfig payload = false)
  /\ (Outcome.handed (POST now (Some payload) db) = []
      \/ exists webhookConfig,
           getUserFromApiKey db (to_string (get payload "apiKey")) = Some webhookConfig
           /\ Outcome.handed (POST now (Some payload) db)
              = [(payload, WebhookConfig.userId webhookConfig)])
  /\ Outcome.handed (POST now None db) = [].
Proof.
  split; [split|split].
  - apply POST_stages.
  - intros (cfg & H1 & H2 & H3 & H4 & H5 & H6 & H7 & H8 & H9).
    destruct (checkRateLimit _ _ _ _ _) as [ok rows] eqn:E. cbn [fst] in H6. subst ok.
    rewrite (POST_hands_over now payload db cfg rows); try assumption. discriminate.
  - destruct (Outcome.handed (POST now (Some payload) db)) as [|h l] eqn:E; [now left|].
    right.
    assert (Outcome.handed (POST now (Some payload) db) <> []) as Hne by (rewrite E; discriminate).
    apply POST_stages in Hne as (cfg & H1 & H2 & H3 & H4 & H5 & H6 & H7 & H8 & H9).
    exists cfg. split; [exact H4|].
    destruct (checkRateLimit _ _ _ _ _) as [ok rows] eqn:E'. cbn [fst] in H6. subst ok.
    rewrite <- E. now apply (POST_hands_over now payload db cfg rows).
  - cbn [POST]. apply handed_on_error.
Qed.

(** A request whose signature does not verify leaves no trace: the tables
    are as they were (no counter of the rate limiter is opened or moved, no
    record is written), nothing is handed to the executor, and the answer
    is 400 or 401. *)
Theorem POST_writes_nothing_for_an_unauthenticated_request
    (now : Z) (payload : object) (db : Database) :
  verifyWebhookSignature db payload = false ->
  Outcome.database (POST now (Some payload) db) = db
  /\ Outcome.handed (POST now (Some payload) db) = []
  /\ (NextResponse.status (Outcome.response (POST now (Some payload) db)) = 400
      \/ NextResponse.status (Outcome.response (POST now (Some payload) db)) = 401).
Proof.
  intros H. unfold POST.
  destruct (missing_required_fields payload); [repeat split; now left|].
  destruct (timestamp_rejected now payload); [repeat split; now right|].
  rewrite H. cbn [negb]. repeat split. now right.
Qed.

End Gates.

Lemma POST_writes_nothing_for_an_unauthenticated_request_witness :
  let out := @POST example_platform example_now (Some forged_alert) (example_db []) in
  Outcome.database out = example_db []
  /\ Outcome.handed out = []
  /\ (NextResponse.status (Outcome.response out) = 400
      \/ NextResponse.status (Outcome.response out) = 401).
Proof.
  apply (@POST_writes_nothing_for_an_unauthenticated_request example_platform example_now
           forged_alert (example_db [])).
  reflexivity.
Defined.

(** * Usage of the day *)

Section Usage.
Context {platform : Platform}.







End Usage.


(** * The validator *)

Lemma includes_value_In l v :
  includes_value l v = true -> exists s, v = Str s /\ In s l.
Proof.
  destruct v as [| |b|n|s]; try discriminate. cbn [includes_value].
  intros H. apply existsb_exists in H as (x & Hin & Hx).
  apply String.eqb_eq in Hx. subst. now exists x.
Qed.

(** What [validateWebhookPayload] accepts: an action among [buy], [sell]
    and [close], a symbol, a quantity that is a number and not zero or
    negative, a key, a signature and a timestamp, a price on a limit
    order, and numbers for the stop loss and take profit that are given.
    A payload it accepts with a quantity other than [NaN] passes the
    required-field stage of the handler. *)
Theorem validateWebhookPayload_accepts_well_formed_alerts_only (payload : object) :
  Validation.valid (validateWebhookPayload payload) = true ->
  (get payload "action" = Str "buy" \/ get payload "action" = Str "sell"
   \/ get payload "action" = Str "close")
  /\ truthy (get payload "symbol") = true
  /\ (get payload "quantity" = Number NaN
      \/ exists q, get payload "quantity" = Number (Num q) /\ (0 < q)%Q)
  /\ truthy (get payload "apiKey") = true
  /\ truthy (get payload "signature") = true
  /\ truthy (get payload "timestamp") = true
  /\ (get payload "orderType" = Str "limit" -> truthy (get payload "price") = true)
  /\ (forall v, v = get payload "stopLoss" \/ v = get payload "takeProfit" ->
                truthy v = true -> exists n, v = Number n)
  /\ (get payload "quantity" <> Number NaN -> missing_required_fields payload = false)
  /\ Validation.error (validateWebhookPayload payload) = None.
Proof.
  unfold validateWebhookPayload.
  destruct (truthy (get payload "action")) eqn:Ha; cbn [negb]; [|discriminate].
  destruct (includes_value _ (get payload "action")) eqn:Hi; cbn [negb]; [|discriminate].
  destruct (truthy (get payload "symbol")) eqn:Hs; cbn [negb]; [|discriminate].
  destruct (match get payload "quantity" with Number n => num_le n (Num 0) | _ => true end)
    eqn:Hq; [discriminate|].
  destruct (truthy (get payload "apiKey")) eqn:Hk; cbn [negb]; [|discriminate].
  destruct (truthy (get payload "signature")) eqn:Hg; cbn [negb]; [|discriminate].
  destruct (truthy (get payload "timestamp")) eqn:Ht; cbn [negb]; [|discriminate].
  destruct (truthy (get payload "orderType") && _) eqn:Ho; [discriminate|].
  destruct (is_string (get payload "orderType") "limit" && _) eqn:Hl; [discriminate|].
  destruct (truthy (get payload "stopLoss") && _) eqn:Hsl; [discriminate|].
  destruct (truthy (get payload "takeProfit") && _) eqn:Htp; [discriminate|].
  intros _.
  assert (get payload "quantity" = Number NaN
          \/ exists q, get payload "quantity" = Number (Num q) /\ (0 < q)%Q) as Hq'.
  { destruct (get payload "quantity") as [| |b|[|q]|s]; try discriminate; [now left|].
    right. exists q. split; [reflexivity|]. cbn [num_le] in Hq.
    destruct (Qlt_le_dec 0 q) as [|Hle]; [assumption|].
    apply Qle_bool_iff in Hle. congruence. }
  repeat split; try assumption.
  - apply includes_value_In in Hi as (s & -> & Hin). cbn [In] in Hin.
    destruct Hin as [<-|[<-|[<-|[]]]]; tauto.
  - intros E. rewrite E in Hl. cbn in Hl. now apply negb_false_iff in Hl.
  - intros v [ -> | -> ] Hv.
    + rewrite Hv in Hsl. cbn [andb] in Hsl. apply negb_false_iff in Hsl.
      destruct (get payload "stopLoss") as [| |b|n|s]; try discriminate. now exists n.
    + rewrite Hv in Htp. cbn [andb] in Htp. apply negb_false_iff in Htp.
      destruct (get payload "takeProfit") as [| |b|n|s]; try discriminate. now exists n.
  - intros Hn. unfold missing_required_fields. rewrite Ha, Hs, Hk. cbn [negb orb].
    destruct Hq' as [E|(q & E & Hpos)]; [contradiction|].
    rewrite E. cbn [truthy num_truthy]. rewrite orb_false_r.
    apply negb_false_iff. apply negb_true_iff.
    destruct (Qeq_bool q 0) eqn:Eq; [|reflexivity].
    apply Qeq_bool_iff in Eq. rewrite Eq in Hpos. now apply Qlt_irrefl in Hpos.
Qed.

Lemma validateWebhookPayload_accepts_well_formed_alerts_only_witness :
  let payload := @signed example_platform "whs_1" (example_alert (5 # 100)) in
  (get payload "action" = Str "buy" \/ get payload "action" = Str "sell"
   \/ get payload "action" = Str "close")
  /\ truthy (get payload "symbol") = true
  /\ (get payload "quantity" = Number NaN
      \/ exists q, get payload "quantity" = Number (Num q) /\ (0 < q)%Q)
  /\ truthy (get payload "apiKey") = true
  /\ truthy (get payload "signature") = true
  /\ truthy (get payload "timestamp") = true
  /\ (get payload "orderType" = Str "limit" -> truthy (get payload "price") = true)
  /\ (forall v, v = get payload "stopLoss" \/ v = get payload "takeProfit" ->
                truthy v = true -> exists n, v = Number n)
  /\ (get payload "quantity" <> Number NaN -> missing_required_fields payload = false)
  /\ Validation.error (validateWebhookPayload payload) = None.
Proof.
  apply (validateWebhookPayload_accepts_well_formed_alerts_only
           (@signed example_platform "whs_1" (example_alert (5 # 100)))).
  reflexivity.
Defined.

(** * Webhooks created, updated, deleted *)

Lemma existsb_api_key rows apiKey :
  existsb (fun r => String.eqb (WebhookDB.api_key r) apiKey) rows = true
  <-> In apiKey (map WebhookDB.api_key rows).
Proof.
  rewrite existsb_exists, in_map_iff. split.
  - intros (r & Hin & E). apply String.eqb_eq in E. now exists r.
  - intros (r & E & Hin). exists r. split; [assumption|]. now apply String.eqb_eq.
Qed.

Lemma filter_api_key_absent rows apiKey :
  ~ In apiKey (map WebhookDB.api_key rows) ->
  filter (fun r => String.eqb (WebhookDB.api_key r) apiKey) rows = [].
Proof.
  induction rows as [|r rows IH]; cbn [map In filter]; [reflexivity|].
  intros H. destruct (String.eqb_spec (WebhookDB.api_key r) apiKey); [tauto|].
  apply IH. tauto.
Qed.

(** For a configuration the columns take, with every field present as
    its type has it, [createWebhook] succeeds exactly when the key is not
    in the table.  On success the key resolves, through
    [getWebhookByApiKey], to the configuration returned, which carries the
    new id and the user and is listed for that user; every other key
    resolves as before and the lists of other users are unchanged.  On
    refusal it throws and the tables are as they were.  Keys stay pairwise
    distinct either way. *)
Theorem createWebhook_succeeds_exactly_on_a_new_key
    (newId userId : string) (config : WebhookConfig.t) (db : Database) :
  fits_columns userId config = true ->
  NoDup (map WebhookDB.api_key (webhooks db)) ->
  ~ In newId (map WebhookDB.id (webhooks db)) ->
  let db' := snd (createWebhook newId userId config db) in
  match fst (createWebhook newId userId config db) with
  | Ret created =>
      ~ In (WebhookConfig.apiKey config) (map WebhookDB.api_key (webhooks db))
      /\ getWebhookByApiKey db' (WebhookConfig.apiKey config) = Some created
      /\ WebhookConfig.id created = newId
      /\ WebhookConfig.userId created = userId
      /\ In created (getUserWebhooks db' userId)
      /\ (forall apiKey,
            apiKey <> WebhookConfig.apiKey config ->
            getWebhookByApiKey db' apiKey = getWebhookByApiKey db apiKey)
      /\ (forall other,
            other <> userId -> getUserWebhooks db' other = getUserWebhooks db other)
  | Throw _ =>
      In (WebhookConfig.apiKey config) (map WebhookDB.api_key (webhooks db))
      /\ db' = db
  end
  /\ NoDup (map WebhookDB.api_key (webhooks db')).
Proof.
  intros _ Hnd Hid db'. subst db'. unfold createWebhook.
  assert (existsb (fun r => String.eqb (WebhookDB.id r) newId) (webhooks db) = false) as ->.
  { apply not_true_is_false. intros H. apply existsb_exists in H as (r & Hin & E).
    apply String.eqb_eq in E. apply Hid. rewrite <- E. now apply in_map. }
  cbn [orb].
  destruct (existsb _ (webhooks db)) eqn:E; cbn [fst snd].
  - split; [|exact Hnd]. split; [|reflexivity]. now apply existsb_api_key.
  - assert (~ In (WebhookConfig.apiKey config) (map WebhookDB.api_key (webhooks db))) as Hnew.
    { intros H. apply existsb_api_key in H. congruence. }
    cbn [webhooks]. split.
    + split; [exact Hnew|]. split.
      { unfold getWebhookByApiKey. cbn [webhooks].
        rewrite filter_app, (filter_api_key_absent _ _ Hnew). cbn [filter WebhookDB.api_key app].
        now rewrite String.eqb_refl. }
      split; [reflexivity|]. split; [reflexivity|]. split.
      { unfold getUserWebhooks. cbn [webhooks]. apply in_map.
        apply in_rev. rewrite rev_involutive. apply filter_In. split.
        - apply in_or_app. right. now left.
        - cbn. apply String.eqb_refl. }
      split.
      { intros apiKey Hne. unfold getWebhookByApiKey. cbn [webhooks].
        rewrite filter_app. cbn [filter WebhookDB.api_key].
        destruct (String.eqb_spec (WebhookConfig.apiKey config) apiKey); [congruence|].
        now rewrite app_nil_r. }
      { intros other Hne. unfold getUserWebhooks. cbn [webhooks].
        rewrite filter_app. cbn [filter WebhookDB.user_id].
        destruct (String.eqb_spec userId other); [congruence|].
        now rewrite app_nil_r. }
    + rewrite map_app. cbn [map WebhookDB.api_key].
      apply NoDup_app; [exact Hnd|repeat constructor; intros []|].
      intros x Hx [<-|[]]. contradiction.
Qed.

Lemma createWebhook_succeeds_exactly_on_a_new_key_witness :
  let config := toWebhookConfig example_webhook in
  let db' := snd (createWebhook "webhook-2" "user_2" config (example_db [])) in
  match fst (createWebhook "webhook-2" "user_2" config (example_db [])) with
  | Ret created =>
      ~ In (WebhookConfig.apiKey config) (map WebhookDB.api_key (webhooks (example_db [])))
      /\ getWebhookByApiKey db' (WebhookConfig.apiKey config) = Some created
      /\ WebhookConfig.id created = "webhook-2"%string
      /\ WebhookConfig.userId created = "user_2"%string
      /\ In created (getUserWebhooks db' "user_2")
      /\ (forall apiKey,
            apiKey <> WebhookConfig.apiKey config ->
            getWebhookByApiKey db' apiKey = getWebhookByApiKey (example_db []) apiKey)
      /\ (forall other,
            other <> "user_2"%string ->
            getUserWebhooks db' other = getUserWebhooks (example_db []) other)
  | Throw _ =>
      In (WebhookConfig.apiKey config) (map WebhookDB.api_key (webhooks (example_db [])))
      /\ db' = example_db []
  end
  /\ NoDup (map WebhookDB.api_key (webhooks db')).
Proof.
  apply (createWebhook_succeeds_exactly_on_a_new_key "webhook-2" "user_2"
           (toWebhookConfig example_webhook) (example_db [])).
  - vm_compute. reflexivity.
  - repeat constructor. simpl. tauto.
  - simpl. intros [H|[]]. discriminate.
Defined.

(** ** Updates *)

Section Stored.
Context {platform : Platform}.



(** ** Deletion *)


Variable is_uuid : string -> bool.



End Stored.

(** ** The route that updates *)




(** * Secrets at rest, credentials as issued *)

Lemma split_on_nonempty sep s : split_on sep s <> [].
Proof.
  induction s as [|c s IH]; cbn [split_on]; [discriminate|].
  destruct (Ascii.eqb c sep); [discriminate|].
  destruct (split_on sep s); [contradiction|discriminate].
Qed.

Lemma split_on_colon_free s : colon_free s = true -> split_on ":" s = [s].
Proof.
  induction s as [|c s IH]; cbn [colon_free split_on]; [reflexivity|].
  intros H. apply andb_prop in H as [Hc Hs]. apply negb_true_iff in Hc.
  rewrite Hc, (IH Hs). reflexivity.
Qed.

Lemma split_on_append a b :
  colon_free a = true -> split_on ":" (a ++ String ":" b) = a :: split_on ":" b.
Proof.
  induction a as [|c a IH]; cbn [colon_free split_on String.append].
  - reflexivity.
  - intros H. apply andb_prop in H as [Hc Hs]. apply negb_true_iff in Hc.
    rewrite Hc, (IH Hs). reflexivity.
Qed.

Lemma split_on_length s : List.length (split_on ":" s) = S (colons s).
Proof.
  induction s as [|c s IH]; cbn [split_on colons]; [reflexivity|].
  destruct (Ascii.eqb c ":"); cbn [List.length]; [now rewrite IH|].
  destruct (split_on ":" s) as [|h t] eqn:E; [now destruct (split_on_nonempty ":" s)|].
  exact IH.
Qed.

Section Secrets.
Context {platform : Platform}.
Variable aes_256_gcm_encrypt : string -> string -> result (string * string).

Lemma decryptApiSecret_format iv data tag decrypted :
  colon_free iv = true -> colon_free data = true -> colon_free tag = true ->
  aes_256_gcm_decrypt iv data tag = Some decrypted ->
  decryptApiSecret (iv ++ ":" ++ data ++ ":" ++ tag) = Ret decrypted.
Proof.
  intros Hi Hd Ht. unfold decryptApiSecret, aes_256_gcm_decrypt.
  destruct getEncryptionKey as [key|e]; [|discriminate].
  change (iv ++ ":" ++ data ++ ":" ++ tag)%string
    with (iv ++ String ":" (data ++ String ":" tag))%string.
  rewrite (split_on_append iv _ Hi), (split_on_append data _ Hd), (split_on_colon_free tag Ht).
  now intros ->.
Qed.

(** A secret stored by [encryptApiSecret] is read back by
    [decryptApiSecret]: the stored text has exactly two colons, and
    splits into the initialisation vector, the data and the tag the cipher
    produced, none of which (being hex) holds a colon. *)
Theorem decryptApiSecret_inverts_encryptApiSecret (iv plainSecret data tag : string) :
  aes_256_gcm_encrypt iv plainSecret = Ret (data, tag) ->
  colon_free iv = true -> colon_free data = true -> colon_free tag = true ->
  aes_256_gcm_decrypt iv data tag = Some plainSecret ->
  exists stored,
    encryptApiSecret aes_256_gcm_encrypt iv plainSecret = Ret stored
    /\ colons stored = 2%nat
    /\ decryptApiSecret stored = Ret plainSecret.
Proof.
  intros He Hi Hd Ht Hdec. unfold encryptApiSecret. rewrite He.
  eexists. split; [reflexivity|]. split.
  - pose proof (split_on_length (iv ++ ":" ++ data ++ ":" ++ tag)) as Hl.
    change (iv ++ ":" ++ data ++ ":" ++ tag)%string
      with (iv ++ String ":" (data ++ String ":" tag))%string in Hl |- *.
    rewrite (split_on_append iv _ Hi), (split_on_append data _ Hd),
            (split_on_colon_free tag Ht) in Hl.
    cbn [List.length] in Hl. lia.
  - exact (decryptApiSecret_format iv data tag plainSecret Hi Hd Ht Hdec).
Qed.

(** [decryptApiSecret] asks for the encryption key before it looks at the
    text: without a usable key it throws what [getEncryptionKey] throws,
    whatever the text; with one, it throws [Invalid encrypted data format]
    exactly on the texts that do not hold two colons, and on the others
    returns or throws what the decipher does. *)
Theorem decryptApiSecret_rejects_other_formats (encryptedData : string) :
  (forall e, getEncryptionKey = Throw e -> decryptApiSecret encryptedData = Throw e)
  /\ (forall key,
        getEncryptionKey = Ret key ->
        (decryptApiSecret encryptedData = Throw "Invalid encrypted data format"
         <-> colons encryptedData <> 2%nat)
        /\ (forall iv data tag,
              split_on ":" encryptedData = [iv; data; tag] ->
              decryptApiSecret encryptedData
              = match createDecipheriv key iv data tag with
                | Some decrypted => Ret decrypted
                | None => Throw "Unsupported state or unable to authenticate data"
                end)).
Proof.
  unfold decryptApiSecret. split.
  - now intros e ->.
  - intros key ->. pose proof (split_on_length encryptedData) as Hl. split.
    + destruct (split_on ":" encryptedData) as [|a [|b [|c [|d l]]]]; cbn [List.length] in Hl.
      * split; [lia|reflexivity].
      * split; [lia|reflexivity].
      * split; [lia|reflexivity].
      * split; [|lia]. destruct (createDecipheriv key a b c); discriminate.
      * split; [lia|reflexivity].
    + now intros iv data tag ->.
Qed.

(** ** Credentials as issued *)

Lemma get_app_found (o o' : object) k :
  In k (keys o) -> get (o ++ o') k = get o k.
Proof.
  induction o as [|[k' v] o IH]; cbn [keys map In app get]; [tauto|].
  intros H. destruct (String.eqb_spec k' k); [reflexivity|].
  apply IH. destruct H; [contradiction|assumption].
Qed.

Lemma get_app_missing (o o' : object) k :
  ~ In k (keys o) -> get (o ++ o') k = get o' k.
Proof.
  induction o as [|[k' v] o IH]; cbn [keys map In app get]; [reflexivity|].
  intros H. destruct (String.eqb_spec k' k); [tauto|]. apply IH. tauto.
Qed.

Lemma signed_message_with_signature alert v :
  signed_message (alert ++ [("signature"%string, v)]) = signed_message alert.
Proof.
  unfold signed_message, omit.
  rewrite filter_app. cbn [filter fst String.eqb Ascii.eqb Bool.eqb negb].
  now rewrite app_nil_r.
Qed.

(** Credentials as issued work, and only with their secret.  For
    credentials from [generateApiCredentials] stored by [createWebhook]
    under a key and an id not yet in the table, an alert naming the key and
    signed with the secret handed out verifies, and no other signature on
    that alert does.  The column [api_secret_hash] receives the SHA-256
    of the key, not of the secret. *)
Theorem issued_credentials_verify
    (keyBytes secretBytes iv data tag newId userId : string)
    (settings : WebhookConfig.t) (db : Database) (alert : object) :
  aes_256_gcm_encrypt iv ("whs_" ++ secretBytes) = Ret (data, tag) ->
  colon_free iv = true -> colon_free data = true -> colon_free tag = true ->
  aes_256_gcm_decrypt iv data tag = Some ("whs_" ++ secretBytes)%string ->
  ~ In newId (map WebhookDB.id (webhooks db)) ->
  ~ In ("wh_" ++ keyBytes)%string (map WebhookDB.api_key (webhooks db)) ->
  get alert "apiKey" = Str ("wh_" ++ keyBytes) ->
  ~ In "signature"%string (keys alert) ->
  exists credentials created db',
    generateApiCredentials aes_256_gcm_encrypt keyBytes secretBytes iv = Ret credentials
    /\ ApiCredentials.apiKey credentials = ("wh_" ++ keyBytes)%string
    /\ ApiCredentials.apiSecret credentials = ("whs_" ++ secretBytes)%string
    /\ ApiCredentials.apiSecretHash credentials = hashApiKey ("wh_" ++ keyBytes)
    /\ createWebhook newId userId (issued_config credentials settings) db = (Ret created, db')
    /\ verifyWebhookSignature db' (signed (ApiCredentials.apiSecret credentials) alert) = true
    /\ forall forged,
         forged <> hmac_sha256_hex (ApiCredentials.apiSecret credentials) (signed_message alert) ->
         verifyWebhookSignature db' (alert ++ [("signature"%string, Str forged)]) = false.
Proof.
  intros He Hi Hd Ht Hdec Hid Hkey Hk Hsig.
  unfold generateApiCredentials, generateSecureApiCredentials, encryptApiSecret.
  rewrite He. eexists. eexists. eexists.
  split; [reflexivity|]. cbn [ApiCredentials.apiKey ApiCredentials.apiSecret
                              ApiCredentials.apiSecretHash].
  split; [reflexivity|]. split; [reflexivity|]. split; [reflexivity|].
  assert (createWebhook newId userId
            (issued_config
               {| ApiCredentials.apiKey := ("wh_" ++ keyBytes)%string;
                  ApiCredentials.apiSecret := ("whs_" ++ secretBytes)%string;
                  ApiCredentials.apiSecretHash := hashApiKey ("wh_" ++ keyBytes);
                  ApiCredentials.encryptedSecret := (iv ++ ":" ++ data ++ ":" ++ tag)%string |}
               settings) db
          = (Ret (toWebhookConfig
                    {| WebhookDB.id := newId;
                       WebhookDB.user_id := userId;
                       WebhookDB.name := WebhookConfig.name settings;
                       WebhookDB.api_key := ("wh_" ++ keyBytes)%string;
                       WebhookDB.api_secret_hash := hashApiKey ("wh_" ++ keyBytes);
                       WebhookDB.encrypted_secret := Some (iv ++ ":" ++ data ++ ":" ++ tag)%string;
                       WebhookDB.enabled := WebhookConfig.enabled settings;
                       WebhookDB.allowed_symbols := WebhookConfig.allowedSymbols settings;
                       WebhookDB.max_order_size := WebhookConfig.maxOrderSize settings;
                       WebhookDB.daily_limit := WebhookConfig.dailyLimit settings;
                       WebhookDB.require_stop_loss := WebhookConfig.requireStopLoss settings;
                       WebhookDB.execution_count := 0 |}),
             {| webhooks := webhooks db ++
                  [ {| WebhookDB.id := newId;
                       WebhookDB.user_id := userId;
                       WebhookDB.name := WebhookConfig.name settings;
                       WebhookDB.api_key := ("wh_" ++ keyBytes)%string;
                       WebhookDB.api_secret_hash := hashApiKey ("wh_" ++ keyBytes);
                       WebhookDB.encrypted_secret := Some (iv ++ ":" ++ data ++ ":" ++ tag)%string;
                       WebhookDB.enabled := WebhookConfig.enabled settings;
                       WebhookDB.allowed_symbols := WebhookConfig.allowedSymbols settings;
                       WebhookDB.max_order_size := WebhookConfig.maxOrderSize settings;
                       WebhookDB.daily_limit := WebhookConfig.dailyLimit settings;
                       WebhookDB.require_stop_loss := WebhookConfig.requireStopLoss settings;
                       WebhookDB.execution_count := 0 |} ];
                webhook_logs := webhook_logs db;
                rate_limits := rate_limits db |})) as Hc.
  { unfold createWebhook, issued_config.
    cbn [WebhookConfig.apiKey WebhookConfig.name WebhookConfig.apiSecretHash
         WebhookConfig.encryptedSecret WebhookConfig.enabled WebhookConfig.allowedSymbols
         WebhookConfig.maxOrderSize WebhookConfig.dailyLimit WebhookConfig.requireStopLoss
         WebhookConfig.executionCount ApiCredentials.apiKey ApiCredentials.apiSecretHash
         ApiCredentials.encryptedSecret].
    assert (existsb (fun r => String.eqb (WebhookDB.id r) newId) (webhooks db) = false) as ->.
    { apply not_true_is_false. intros H. apply existsb_exists in H as (r & Hin & E).
      apply String.eqb_eq in E. apply Hid. rewrite <- E. now apply in_map. }
    assert (existsb (fun r => String.eqb (WebhookDB.api_key r) ("wh_" ++ keyBytes))
                    (webhooks db) = false) as ->.
    { apply not_true_is_false. intros H. now apply existsb_api_key in H. }
    cbn [orb].
    assert (String.eqb (iv ++ ":" ++ data ++ ":" ++ tag) EmptyString = false) as ->.
    { apply String.eqb_neq. destruct iv; discriminate. }
    reflexivity. }
  split; [exact Hc|].
  assert (forall payload,
            get payload "apiKey" = Str ("wh_" ++ keyBytes) ->
            verifyWebhookSignature
              {| webhooks := webhooks db ++
                  [ {| WebhookDB.id := newId;
                       WebhookDB.user_id := userId;
                       WebhookDB.name := WebhookConfig.name settings;
                       WebhookDB.api_key := ("wh_" ++ keyBytes)%string;
                       WebhookDB.api_secret_hash := hashApiKey ("wh_" ++ keyBytes);
                       WebhookDB.encrypted_secret := Some (iv ++ ":" ++ data ++ ":" ++ tag)%string;
                       WebhookDB.enabled := WebhookConfig.enabled settings;
                       WebhookDB.allowed_symbols := WebhookConfig.allowedSymbols settings;
                       WebhookDB.max_order_size := WebhookConfig.maxOrderSize settings;
                       WebhookDB.daily_limit := WebhookConfig.dailyLimit settings;
                       WebhookDB.require_stop_loss := WebhookConfig.requireStopLoss settings;
                       WebhookDB.execution_count := 0 |} ];
                 webhook_logs := webhook_logs db;
                 rate_limits := rate_limits db |} payload
            = match verifyHmacSignature payload (get payload "signature")
                      ("whs_" ++ secretBytes) with
              | Ret verdict => verdict
              | Throw _ => false
              end) as Hv.
  { intros payload Hp. unfold verifyWebhookSignature, getWebhookByApiKey.
    rewrite Hp. cbn [to_string webhooks].
    rewrite filter_app, (filter_api_key_absent _ _ Hkey).
    cbn [filter WebhookDB.api_key app]. rewrite String.eqb_refl.
    cbn [single toWebhookConfig WebhookConfig.encryptedSecret WebhookDB.encrypted_secret].
    assert (String.eqb (iv ++ ":" ++ data ++ ":" ++ tag) EmptyString = false) as ->.
    { apply String.eqb_neq. destruct iv; discriminate. }
    now rewrite (decryptApiSecret_format iv data tag _ Hi Hd Ht Hdec). }
  assert (In "apiKey"%string (keys alert)) as Hin.
  { destruct (in_dec string_dec "apiKey"%string (keys alert)) as [|Hn]; [assumption|].
    rewrite (get_not_key alert _ Hn) in Hk. discriminate. }
  split.
  - unfold signed. rewrite Hv by (now rewrite get_app_found).
    rewrite (proj2 (verifyHmacSignature_true _ _ _)); [reflexivity|].
    rewrite get_app_missing by assumption. cbn [get String.eqb Ascii.eqb Bool.eqb].
    now rewrite signed_message_with_signature.
  - intros forged Hf. rewrite Hv by (now rewrite get_app_found).
    destruct (verifyHmacSignature _ _ _) as [[|]|] eqn:E; try reflexivity.
    apply verifyHmacSignature_true in E.
    rewrite get_app_missing in E by assumption. cbn [get String.eqb Ascii.eqb Bool.eqb] in E.
    rewrite signed_message_with_signature in E. injection E as E. contradiction.
Qed.

End Secrets.

Lemma issued_credentials_verify_witness :
  exists credentials created db',
    @generateApiCredentials example_platform example_encrypt "2" "2" "iv" = Ret credentials
    /\ ApiCredentials.apiKey credentials = "wh_2"%string
    /\ ApiCredentials.apiSecret credentials = "whs_2"%string
    /\ ApiCredentials.apiSecretHash credentials = @hashApiKey example_platform "wh_2"
    /\ createWebhook "webhook-2" "user_2"
         (issued_config credentials (toWebhookConfig example_webhook)) (example_db [])
       = (Ret created, db')
    /\ @verifyWebhookSignature example_platform db'
         (@signed example_platform (ApiCredentials.apiSecret credentials) alert_of_second_key)
       = true
    /\ forall forged,
         forged <> @hmac_sha256_hex example_platform (ApiCredentials.apiSecret credentials)
                     (@signed_message example_platform alert_of_second_key) ->
         @verifyWebhookSignature example_platform db'
           (alert_of_second_key ++ [("signature"%string, Str forged)]) = false.
Proof.
  apply (@issued_credentials_verify example_platform example_encrypt
           "2" "2" "iv" "whs_2" "tag" "webhook-2" "user_2"
           (toWebhookConfig example_webhook) (example_db []) alert_of_second_key).
  - reflexivity.
  - reflexivity.
  - reflexivity.
  - reflexivity.
  - reflexivity.
  - simpl. intros [H|[]]. discriminate.
  - simpl. intros [H|[]]. discriminate.
  - reflexivity.
  - simpl. intuition discriminate.
Defined.

Lemma decryptApiSecret_inverts_encryptApiSecret_witness :
  exists stored,
    @encryptApiSecret example_encrypt "iv" "whs_1" = Ret stored
    /\ colons stored = 2%nat
    /\ @decryptApiSecret example_platform stored = Ret "whs_1"%string.
Proof.
  apply (@decryptApiSecret_inverts_encryptApiSecret example_platform example_encrypt
           "iv" "whs_1" "whs_1" "tag"); reflexivity.
Defined.

(** * Legacy credentials, permissions, configuration *)

Section Legacy.
Context {platform : Platform}.

(** A credential stored without an encrypted secret (or with an empty one)
    cannot authenticate: no payload under its key verifies, whatever its
    signature, and none is handed to the executor. *)
Theorem credential_without_encrypted_secret_never_verifies
    (now : Z) (db : Database) (payload : object) (data : WebhookDB.t) :
  In data (webhooks db) ->
  WebhookDB.encrypted_secret data = None
  \/ WebhookDB.encrypted_secret data = Some EmptyString ->
  to_string (get payload "apiKey") = WebhookDB.api_key data ->
  verifyWebhookSignature db payload = false
  /\ Outcome.handed (POST now (Some payload) db) = [].
Proof.
  intros Hin Hs Hk.
  assert (verifyWebhookSignature db payload = false) as Hv.
  { unfold verifyWebhookSignature, getWebhookByApiKey. rewrite Hk.
    destruct (filter _ (webhooks db)) as [|r [|r' l]] eqn:Hf; cbn [single]; try reflexivity.
    assert (In data (filter (fun r0 => String.eqb (WebhookDB.api_key r0) (WebhookDB.api_key data))
                       (webhooks db))) as Hd
      by (apply filter_In; split; [assumption|apply String.eqb_refl]).
    rewrite Hf in Hd. destruct Hd as [->|[]].
    cbn [toWebhookConfig WebhookConfig.encryptedSecret].
    destruct Hs as [->| ->]; reflexivity. }
  split; [exact Hv|].
  destruct (Outcome.handed (POST now (Some payload) db)) as [|h l] eqn:E; [reflexivity|].
  assert (Outcome.handed (POST now (Some payload) db) <> []) as Hne
    by (rewrite E; discriminate).
  apply POST_stages in Hne as (cfg & _ & _ & H3 & _). congruence.
Qed.

(** Every request the handler hands over comes under a key for which
    [checkApiKeyPermissions] holds, whatever permissions are asked for. *)
Theorem POST_hands_over_only_with_permission
    (now : Z) (payload : object) (db : Database) (requiredPermissions : list string) :
  Outcome.handed (POST now (Some payload) db) <> [] ->
  checkApiKeyPermissions db (to_string (get payload "apiKey")) requiredPermissions = true.
Proof.
  intros H. apply POST_stages in H as (cfg & _ & _ & _ & H4 & H5 & _).
  unfold checkApiKeyPermissions. unfold getUserFromApiKey in H4. now rewrite H4.
Qed.

End Legacy.

Lemma credential_without_encrypted_secret_never_verifies_witness :
  let payload := @signed example_platform "whs_1" (example_alert 1) in
  @verifyWebhookSignature example_platform legacy_db payload = false
  /\ Outcome.handed (@POST example_platform example_now (Some payload) legacy_db) = [].
Proof.
  apply (@credential_without_encrypted_secret_never_verifies example_platform example_now
           legacy_db (@signed example_platform "whs_1" (example_alert 1)) legacy_webhook).
  - now left.
  - now left.
  - reflexivity.
Defined.

Lemma POST_hands_over_only_with_permission_witness :
  checkApiKeyPermissions (example_db [])
    (@to_string example_platform
       (get (@signed example_platform "whs_1" (example_alert (5 # 100))) "apiKey"))
    ["trade"%string] = true.
Proof.
  apply (@POST_hands_over_only_with_permission example_platform example_now
           (@signed example_platform "whs_1" (example_alert (5 # 100))) (example_db [])).
  vm_compute. discriminate.
Defined.

(** ** Configuration from the environment *)

Section Environment.
Variable process_env : string -> option string.
Variable parseInt : string -> option Z.




End Environment.

(** ** Random strings *)

Lemma string_get_in_range n : forall s,
  (n < String.length s)%nat ->
  exists c, String.get n s = Some c /\ In c (list_ascii_of_string s).
Proof.
  induction n as [|n IH]; intros [|c s] H; cbn in H; try lia.
  - exists c. split; [reflexivity|now left].
  - destruct (IH s ltac:(lia)) as (c' & E & Hin). exists c'. split; [exact E|now right].
Qed.

Lemma list_ascii_of_string_append a b :
  list_ascii_of_string (a ++ b) = list_ascii_of_string a ++ list_ascii_of_string b.
Proof. induction a as [|c a IH]; cbn; [reflexivity|now rewrite IH]. Qed.

Lemma generateRandomString_fold randomBytes : forall result,
  let out :=
    fold_left
      (fun result byte =>
         match String.get (Z.to_nat (byte mod Z.of_nat (String.length chars))) chars with
         | Some c => (result ++ String c EmptyString)%string
         | None => (result ++ "undefined")%string
         end) randomBytes result in
  String.length out = (String.length result + List.length randomBytes)%nat
  /\ forall c, In c (list_ascii_of_string out) ->
               In c (list_ascii_of_string result) \/ In c (list_ascii_of_string chars).
Proof.
  induction randomBytes as [|byte bytes IH]; intros result; cbn [fold_left List.length].
  - split; [lia|]. intros c Hc. now left.
  - destruct (string_get_in_range
                (Z.to_nat (byte mod Z.of_nat (String.length chars))) chars) as (c0 & E & Hin0).
    { pose proof (Z.mod_pos_bound byte (Z.of_nat (String.length chars))) as Hb.
      assert (0 < Z.of_nat (String.length chars)) as Hpos by (cbn; lia).
      specialize (Hb Hpos). lia. }
    rewrite E. destruct (IH (result ++ String c0 EmptyString)%string) as [Hl Hc].
    cbv zeta in Hl, Hc |- *. split.
    + rewrite Hl, string_length_append. cbn. lia.
    + intros c Hin. destruct (Hc c Hin) as [H|H]; [|now right].
      rewrite list_ascii_of_string_append in H. apply in_app_or in H as [H|H]; [now left|].
      cbn in H. destruct H as [<-|[]]. now right.
Qed.

(** [generateRandomString] returns as many characters as bytes were drawn,
    each of them a letter or a digit of [chars]: the index is always within
    the alphabet. *)
Theorem generateRandomString_is_alphanumeric_of_the_length_asked (randomBytes : list Z) :
  String.length (generateRandomString randomBytes) = List.length randomBytes
  /\ forall c, In c (list_ascii_of_string (generateRandomString randomBytes)) ->
               In c (list_ascii_of_string chars).
Proof.
  unfold generateRandomString.
  destruct (generateRandomString_fold randomBytes EmptyString) as [Hl Hc].
  cbv zeta in Hl, Hc. split; [exact Hl|].
  intros c Hin. destruct (Hc c Hin) as [[]|H]. exact H.
Qed.
